(** * wiretap: static mock matcher, transport wrapper, validator adapter
      and report streamer

    A shallow embedding of the Go sources of the proxy (package
    [staticMock]: the request matcher; package [daemon]: [callAPI] and its
    transport, [ValidateRequest] / [ValidateResponse], and the report
    streamer of [stream_output.go]) together with the properties of its
    specification that concern them.

    Conventions.  A Go [string] is a [string]; a [map[string]T] is a
    [gmap string T]; a nil pointer to a map is [None]; a value of type
    [any] decoded from JSON or YAML is a [value] (the nil interface is
    [VNull]).  Code that can panic runs in the monad [M], which threads the
    mutable state and ends in [Ret] or [Panic]. *)

From Stdlib Require Import ZArith Lia List Bool Ascii String.
From stdpp Require Import base option list gmap strings fin_maps.

Set Warnings "-register-all".
Open Scope Z_scope.

(** ** Panics and state *)

(** What [recover()] hands back: Go panics carry an arbitrary value; the
    ones that occur here are strings ([panic("...")]) and [error] values
    ([panic(err)], run-time errors). *)
Inductive PanicValue :=
| PString (s : string)
| PError (msg : string).

Inductive Outcome (A : Type) :=
| Ret (a : A)
| Panic (v : PanicValue).
Arguments Ret {A} a.
Arguments Panic {A} v.

(** A computation over a mutable state [S]: the state survives a panic, as
    the heap does in Go. *)
Definition M (S A : Type) : Type := S -> Outcome A * S.

Definition ret {S A} (a : A) : M S A := fun s => (Ret a, s).

Definition bind {S A B} (m : M S A) (k : A -> M S B) : M S B :=
  fun s =>
    match m s with
    | (Ret a, s') => k a s'
    | (Panic v, s') => (Panic v, s')
    end.

Definition panic {S A} (v : PanicValue) : M S A := fun s => (Panic v, s).
Definition get {S} : M S S := fun s => (Ret s, s).
Definition put {S} (s : S) : M S unit := fun _ => (Ret tt, s).
Definition modify {S} (f : S -> S) : M S unit := fun s => (Ret tt, f s).

Declare Scope go_scope.
Delimit Scope go_scope with go.
Notation "x <- m ;; k" := (bind m (fun x => k))
  (at level 100, m at next level, right associativity) : go_scope.
Notation "m ;;; k" := (bind m (fun _ => k))
  (at level 100, right associativity) : go_scope.

(** ** Values of type [any] *)

Inductive value :=
| VNull
| VBool (b : bool)
| VNum (n : Z)
| VStr (s : string)
| VArr (xs : list value)
| VObj (fields : list (string * value)).

(** ** net/http: the parts the sources use *)

(** [http.Header] and [url.Values]: a key maps to an ordered sequence. *)
Abbreviation Header := (gmap string (list string)).

(** Indexing a Go map of slices: an absent key reads as the nil slice. *)
Definition index (h : Header) (k : string) : list string :=
  default [] (h !! k).

(** [Header.Get]: the first value under the key, [""] when there is none.
    The keys the sources pass are already in canonical form. *)
Definition Header_Get (h : Header) (k : string) : string :=
  match h !! k with
  | Some (v :: _) => v
  | _ => ""
  end.

(** [Header.Set]: the key now holds exactly this one value. *)
Definition Header_Set (h : Header) (k v : string) : Header :=
  <[k := [v]]> h.

(** A request body: the bytes still to be read, and the error the stream
    ends in, if any. *)
Record Reader := { pending : string; failure : option string }.

(** [io.ReadAll]: everything up to the end, and the error (if any); the
    reader is left exhausted. *)
Definition ReadAll (b : Reader) : (string * option string) * Reader :=
  ((pending b, failure b), {| pending := ""; failure := failure b |}).

(** [io.NopCloser(bytes.NewReader(bs))] *)
Definition NewReader (bs : string) : Reader :=
  {| pending := bs; failure := None |}.

Record URL := { Path : string; Query : Header }.

Record Request := {
  Host : string;
  Method : string;
  Url : URL;
  ReqHeader : Header;
  Body : Reader
}.

Definition set_Body (r : Request) (b : Reader) : Request :=
  {| Host := Host r; Method := Method r; Url := Url r;
     ReqHeader := ReqHeader r; Body := b |}.

(** * Package staticMock *)

Module StaticMock.

(** [StaticMockDefinitionRequest]: the selector of a mock definition. *)
Record StaticMockDefinitionRequest := {
  mHost : string;
  mMethod : string;
  mUrlPath : string;
  mHeader : option (gmap string value);
  mQueryParams : option (gmap string value);
  mBody : value
}.

Section Matcher.

(** [shared.IsSubset], [shared.StringCompare] and [json.Unmarshal] are
    called, not defined, by the matcher. *)
Variable IsSubset : value -> value -> bool.
Variable StringCompare : string -> string -> bool.
Variable Unmarshal : string -> option value.

Open Scope go_scope.

Definition getBodyFromHttpRequest : M Request value :=
  request <- get ;;
  let '((bodyBytes, err), rest) := ReadAll (Body request) in
  put (set_Body request rest) ;;;
  match err with
  | Some e => panic (PError e)
  | None =>
      (* Restore request.Body so it can be read again *)
      put (set_Body request (NewReader bodyBytes)) ;;;
      if (String.length bodyBytes =? 0)%nat then ret VNull
      else match Unmarshal bodyBytes with
           | None => panic (PError "json: cannot decode the request body")
           | Some bodyJsonObj => ret bodyJsonObj
           end
  end.

Definition compareJsonBody (mock : StaticMockDefinitionRequest) : M Request bool :=
  request <- get ;;
  if negb (String.eqb (Header_Get (ReqHeader request) "Content-Type") "application/json")
  then ret false
  else
    incomingBody <- getBodyFromHttpRequest ;;
    ret (IsSubset (mBody mock) incomingBody).

Definition transStrArrToInterfaceArr (strArr : list string) : value :=
  VArr (map VStr strArr).

(** One turn of the loop over the mock's map; [compareHeaders] and
    [compareQueryParams] have the same body. *)
Definition compareEntry (incoming : Header) (key : string) (v : value) (found : bool) : bool :=
  match v with
  | VStr s => found && IsSubset (VArr [VStr s]) (transStrArrToInterfaceArr (index incoming key))
  | VArr _ => found && IsSubset v (transStrArrToInterfaceArr (index incoming key))
  | _ => found
  end.

(** What one entry demands of the incoming values: the loop body run on
    [found = true]. *)
Definition entry_holds (incoming : Header) (key : string) (v : value) : bool :=
  compareEntry incoming key v true.

Definition compareHeaders (mockHeaders : gmap string value) (incoming : Request) : bool :=
  map_fold (compareEntry (ReqHeader incoming)) true mockHeaders.

Definition compareQueryParams (mockQueryParams : gmap string value) (incomingQueries : Header) : bool :=
  map_fold (compareEntry incomingQueries) true mockQueryParams.

Definition compareBody (mock : StaticMockDefinitionRequest) : M Request bool :=
  match mBody mock with
  | VStr mb =>
      incoming <- get ;;
      let '((incomingBodyBytes, err), rest) := ReadAll (Body incoming) in
      put (set_Body incoming rest) ;;;
      match err with
      | Some e => panic (PError e)
      | None =>
          if negb (String.eqb incomingBodyBytes mb) then ret false else ret true
      end
  | VObj _ =>
      ok <- compareJsonBody mock ;;
      if negb ok then ret false else ret true
  | VArr _ =>
      ok <- compareJsonBody mock ;;
      if negb ok then ret false else ret true
  | _ => ret false
  end.

Definition isNil (v : value) : bool :=
  match v with VNull => true | _ => false end.

Definition isRequestMatch (mock : StaticMockDefinitionRequest) : M Request bool :=
  incoming <- get ;;
  if negb (String.eqb (mHost mock) "") && negb (StringCompare (mHost mock) (Host incoming))
  then ret false
  else if negb (String.eqb (Method incoming) (mMethod mock)) then ret false
  else if negb (String.eqb (mUrlPath mock) "")
          && negb (StringCompare (mUrlPath mock) (Path (Url incoming)))
  then ret false
  else if match mHeader mock with
          | Some h => negb (compareHeaders h incoming)
          | None => false
          end
  then ret false
  else if match mQueryParams mock with
          | Some q => negb (compareQueryParams q (Query (Url incoming)))
          | None => false
          end
  then ret false
  else if negb (isNil (mBody mock)) then
    ok <- compareBody mock ;;
    if negb ok then ret false else ret true
  else ret true.

End Matcher.

(** Removing one selector field from a mock definition. *)
Inductive Selector := SelHost | SelUrlPath | SelHeader | SelQueryParams | SelBody.

Definition remove (sel : Selector) (m : StaticMockDefinitionRequest) : StaticMockDefinitionRequest :=
  match sel with
  | SelHost =>
      {| mHost := ""; mMethod := mMethod m; mUrlPath := mUrlPath m;
         mHeader := mHeader m; mQueryParams := mQueryParams m; mBody := mBody m |}
  | SelUrlPath =>
      {| mHost := mHost m; mMethod := mMethod m; mUrlPath := "";
         mHeader := mHeader m; mQueryParams := mQueryParams m; mBody := mBody m |}
  | SelHeader =>
      {| mHost := mHost m; mMethod := mMethod m; mUrlPath := mUrlPath m;
         mHeader := None; mQueryParams := mQueryParams m; mBody := mBody m |}
  | SelQueryParams =>
      {| mHost := mHost m; mMethod := mMethod m; mUrlPath := mUrlPath m;
         mHeader := mHeader m; mQueryParams := None; mBody := mBody m |}
  | SelBody =>
      {| mHost := mHost m; mMethod := mMethod m; mUrlPath := mUrlPath m;
         mHeader := mHeader m; mQueryParams := mQueryParams m; mBody := VNull |}
  end.

End StaticMock.

(** * Package shared: the comparison primitives *)

Module Shared.

Fixpoint lookup_field (k : string) (fields : list (string * value)) : option value :=
  match fields with
  | [] => None
  | (k', v) :: rest => if String.eqb k k' then Some v else lookup_field k rest
  end.

(** Modelled from the spec: [shared.IsSubset] is not among the sources.
    Objects: every key of [sub] exists in [full] with a value that contains
    it; arrays: every element of [sub] is contained in some element of
    [full]; scalars: equality; different kinds: false. *)
Fixpoint IsSubset (sub full : value) {struct sub} : bool :=
  match sub, full with
  | VObj fs, VObj gs =>
      forallb (fun kv =>
                 match lookup_field (fst kv) gs with
                 | Some w => IsSubset (snd kv) w
                 | None => false
                 end) fs
  | VArr xs, VArr ys => forallb (fun x => existsb (fun y => IsSubset x y) ys) xs
  | VNull, VNull => true
  | VBool a, VBool b => Bool.eqb a b
  | VNum a, VNum b => Z.eqb a b
  | VStr a, VStr b => String.eqb a b
  | _, _ => false
  end.

Definition lower (c : ascii) : ascii :=
  let n := nat_of_ascii c in
  if ((65 <=? n) && (n <=? 90))%nat then ascii_of_nat (n + 32) else c.

Fixpoint to_lower (s : string) : string :=
  match s with
  | EmptyString => EmptyString
  | String c s' => String (lower c) (to_lower s')
  end.

(** Modelled from the spec: [shared.StringCompare] is not among the
    sources; equality up to the case of ASCII letters. *)
Definition StringCompare (a b : string) : bool :=
  String.eqb (to_lower a) (to_lower b).

(** Stands for [json.Unmarshal] where a concrete decoder is needed: it
    knows the empty object and the empty array and rejects the rest. *)
Definition decode_only_empty (s : string) : option value :=
  if String.eqb s "{}" then Some (VObj [])
  else if String.eqb s "[]" then Some (VArr [])
  else None.

End Shared.

(** * Package daemon: the transport wrapper and [callAPI] *)

Record Response := { StatusCode : Z; RespHeader : Header }.

Definition set_RespHeader (r : Response) (h : Header) : Response :=
  {| StatusCode := StatusCode r; RespHeader := h |}.

Module Transport.

(** What [originalTransport.RoundTrip] comes back with: a response, or a
    nil response and an error. *)
Inductive RoundTripResult :=
| Answered (resp : Response)
| Failed (err : string).

Record wiretapTransport := { capturedCookieHeaders : list string }.

Definition newWiretapTransport : wiretapTransport :=
  {| capturedCookieHeaders := [] |}.

(** [RoundTrip], given what the original transport returned for the
    request: the result is passed on as it is. *)
Definition RoundTrip (c : wiretapTransport) (res : RoundTripResult)
  : wiretapTransport * RoundTripResult :=
  match res with
  | Answered resp =>
      let cookie := Header_Get (RespHeader resp) "Set-Cookie" in
      if negb (String.eqb cookie "")
      then ({| capturedCookieHeaders := capturedCookieHeaders c ++ [cookie] |}, res)
      else (c, res)
  | Failed _ => (c, res)
  end.

(** [http.Client.Do] over the wrapped transport. The upstream is given by
    its answers to the successive round trips of the call (the first
    request, then one per redirect followed): the client stops at the first
    error, and returns the last answer. *)
Fixpoint Do (tr : wiretapTransport) (chain : list RoundTripResult)
  : wiretapTransport * RoundTripResult :=
  match chain with
  | [] => (tr, Failed "no round trip")
  | res :: rest =>
      match RoundTrip tr res with
      | (tr', Failed e) => (tr', Failed e)
      | (tr', Answered resp) =>
          match rest with
          | [] => (tr', Answered resp)
          | _ :: _ => Do tr' rest
          end
      end
  end.

(** [callAPI]: the rewriting of the request does not bear on the response;
    the upstream enters as the chain of its answers. The captured list is
    also printed, which is left out. *)
Definition callAPI (chain : list RoundTripResult) : Response + string :=
  let tr := newWiretapTransport in
  match Do tr chain with
  | (_, Failed err) => inr err
  | (tr', Answered resp) =>
      match capturedCookieHeaders tr' with
      | first :: _ =>
          if String.eqb (Header_Get (RespHeader resp) "Set-Cookie") ""
          then inl (set_RespHeader resp (Header_Set (RespHeader resp) "Set-Cookie" first))
          else inl resp
      | [] => inl resp
      end
  end.

(** The Set-Cookie values a chain of responses carries, in order. *)
Definition cookies (resps : list Response) : list string :=
  filter (fun c => c <> "") (map (fun r => Header_Get (RespHeader r) "Set-Cookie") resps).

End Transport.

(** * Package daemon: the validator adapter *)

(** [errors.ValidationError] of the validator library: the adapter reads
    its message and asks whether it reports a missing path. *)
Record ValidationError := { Message : string; pathMissing : bool }.

Definition IsPathMissingError (e : ValidationError) : bool := pathMissing e.

Module Validate.

(** [model.Request]: the request as the pipeline carries it. *)
Record ModelRequest := { Id : string; HttpRequest : Request }.

(** The record that [BuildHttpTransaction] and [BuildResponse] build. *)
Record HttpTransaction := {
  OriginalRequest : option Request;
  NewRequest : option Request;
  TransactionResponse : option Response;
  RequestValidation : list ValidationError;
  ResponseValidation : list ValidationError
}.

Definition set_RequestValidation (t : HttpTransaction) (errs : list ValidationError) :=
  {| OriginalRequest := OriginalRequest t; NewRequest := NewRequest t;
     TransactionResponse := TransactionResponse t;
     RequestValidation := errs; ResponseValidation := ResponseValidation t |}.

Definition set_ResponseValidation (t : HttpTransaction) (errs : list ValidationError) :=
  {| OriginalRequest := OriginalRequest t; NewRequest := NewRequest t;
     TransactionResponse := TransactionResponse t;
     RequestValidation := RequestValidation t; ResponseValidation := errs |}.

Record HttpTransactionConfig := {
  cfgOriginalRequest : Request;
  cfgNewRequest : Request;
  cfgID : string
}.

(** The transaction store holds values of type [any]. *)
Inductive Stored :=
| StoredRequest (r : ModelRequest)
| StoredTransaction (t : HttpTransaction).

(** What goes out on the broadcast sink. *)
Inductive Broadcast :=
| BroadcastRequest (r : ModelRequest) (t : HttpTransaction)
| BroadcastRequestValidationErrors (r : ModelRequest) (errs : list ValidationError)
    (t : HttpTransaction)
| BroadcastResponse (r : ModelRequest) (resp : Response)
| BroadcastResponseValidationErrors (r : ModelRequest) (resp : Response)
    (errs : list ValidationError).

(** The fields of [WiretapService] the adapter touches. The channel and the
    sink are the sequences of what was sent on them, oldest first. *)
Record WiretapService := {
  document : bool;
  docModel : bool;
  transactionStore : gmap string Stored;
  streamChan : list (list ValidationError);
  broadcasts : list Broadcast
}.

Definition Put (key : string) (v : Stored) : M WiretapService unit :=
  modify (fun ws =>
    {| document := document ws; docModel := docModel ws;
       transactionStore := <[key := v]> (transactionStore ws);
       streamChan := streamChan ws; broadcasts := broadcasts ws |}).

Definition send (batch : list ValidationError) : M WiretapService unit :=
  modify (fun ws =>
    {| document := document ws; docModel := docModel ws;
       transactionStore := transactionStore ws;
       streamChan := streamChan ws ++ [batch]; broadcasts := broadcasts ws |}).

Definition broadcast (b : Broadcast) : M WiretapService unit :=
  modify (fun ws =>
    {| document := document ws; docModel := docModel ws;
       transactionStore := transactionStore ws;
       streamChan := streamChan ws; broadcasts := broadcasts ws ++ [b] |}).

(** A call into the validator: it returns or it panics, and leaves the
    service as it was. *)
Definition call {A} (o : Outcome A) : M WiretapService A := fun ws => (o, ws).

(** [defer func() { if r := recover(); r != nil { resultErrors =
    append(resultErrors, &ValidationError{Message: prefix + r.(string)}) } }()]
    around a body that sets the named result only by returning. When the
    body panics the named result is still nil; [r.(string)] is an
    unchecked type assertion, which panics in its turn on any value that is
    not a string. *)
Definition recovering (prefix : string) (body : M WiretapService (list ValidationError))
  : M WiretapService (list ValidationError) :=
  fun ws =>
    match body ws with
    | (Ret resultErrors, ws') => (Ret resultErrors, ws')
    | (Panic r, ws') =>
        match r with
        | PString text =>
            (Ret ([] ++ [{| Message := prefix +:+ text; pathMissing := false |}]), ws')
        | PError _ =>
            (Panic (PError "interface conversion: interface {} is error, not string"), ws')
        end
    end.

Section Adapter.

(** The validator library and the two builders are called, not defined,
    here. The configuration that [ValidateRequest] hands on to
    [BuildHttpTransaction] is left out. *)
Variable ValidateHttpRequest : Request -> Outcome (list ValidationError).
Variable ValidateHttpResponse : Request -> Response -> Outcome (list ValidationError).
Variable BuildHttpTransaction : HttpTransactionConfig -> HttpTransaction.
Variable BuildResponse : ModelRequest -> Response -> HttpTransaction.

Open Scope go_scope.

Definition ValidateResponse (request : ModelRequest) (returnedResponse : Response)
  : M WiretapService (list ValidationError) :=
  recovering "Error validating response: " (
    ws <- get ;;
    validationErrors <-
      (if document ws && docModel ws
       then call (ValidateHttpResponse (HttpRequest request) returnedResponse)
       else ret []) ;;
    (* wipe out any path not found errors *)
    let cleanedErrors :=
      fold_left (fun cleaned e =>
                   if negb (IsPathMissingError e) then cleaned ++ [e] else cleaned)
                validationErrors [] in
    let transaction := BuildResponse request returnedResponse in
    let transaction :=
      if (0 <? length cleanedErrors)%nat
      then set_ResponseValidation transaction cleanedErrors else transaction in
    Put (Id request) (StoredTransaction transaction) ;;;
    (if (0 <? length cleanedErrors)%nat
     then send cleanedErrors ;;;
          broadcast (BroadcastResponseValidationErrors request returnedResponse cleanedErrors)
     else broadcast (BroadcastResponse request returnedResponse)) ;;;
    ret validationErrors).

Definition ValidateRequest (modelRequest : ModelRequest) (httpRequest : Request)
  : M WiretapService (list ValidationError) :=
  recovering "Error validating request: " (
    ws <- get ;;
    validationErrors <-
      (if document ws && docModel ws
       then call (ValidateHttpRequest httpRequest)
       else ret []) ;;
    let cleanedErrors :=
      fold_left (fun cleaned validationError => cleaned ++ [validationError])
                validationErrors [] in
    (* record results *)
    let buildTransConfig :=
      {| cfgOriginalRequest := HttpRequest modelRequest;
         cfgNewRequest := httpRequest;
         cfgID := Id modelRequest |} in
    let transaction := BuildHttpTransaction buildTransConfig in
    let transaction :=
      if (0 <? length cleanedErrors)%nat
      then set_RequestValidation transaction cleanedErrors else transaction in
    Put (Id modelRequest) (StoredRequest modelRequest) ;;;
    (* broadcast what we found *)
    (if (0 <? length cleanedErrors)%nat
     then send cleanedErrors ;;;
          broadcast (BroadcastRequestValidationErrors modelRequest cleanedErrors transaction)
     else broadcast (BroadcastRequest modelRequest transaction)) ;;;
    ret cleanedErrors).

End Adapter.

(** Builders to run the adapter with: they fill in what they are given. *)
Definition plainTransaction (cfg : HttpTransactionConfig) : HttpTransaction :=
  {| OriginalRequest := Some (cfgOriginalRequest cfg);
     NewRequest := Some (cfgNewRequest cfg);
     TransactionResponse := None;
     RequestValidation := []; ResponseValidation := [] |}.

Definition plainResponse (r : ModelRequest) (resp : Response) : HttpTransaction :=
  {| OriginalRequest := Some (HttpRequest r); NewRequest := None;
     TransactionResponse := Some resp;
     RequestValidation := []; ResponseValidation := [] |}.

End Validate.

(** * Package strings: the two functions the streamer uses *)

Module Strings.

Fixpoint HasPrefix (s prefix : string) : bool :=
  match prefix, s with
  | EmptyString, _ => true
  | String p prefix', String c s' => Ascii.eqb c p && HasPrefix s' prefix'
  | String _ _, EmptyString => false
  end.

Fixpoint Contains (s substr : string) : bool :=
  HasPrefix s substr ||
  match s with
  | EmptyString => false
  | String _ s' => Contains s' substr
  end.

Fixpoint drop (n : nat) (s : string) : string :=
  match n, s with
  | O, _ => s
  | S n', String _ s' => drop n' s'
  | S _, EmptyString => EmptyString
  end.

Fixpoint take (n : nat) (s : string) : string :=
  match n, s with
  | S n', String c s' => String c (take n' s')
  | _, _ => EmptyString
  end.

(** Left to right, without overlap: where [old] starts, [new] is written
    and the scan resumes behind it. *)
Fixpoint replace_from (fuel : nat) (s old new : string) : string :=
  match fuel with
  | O => s
  | S fuel' =>
      match s with
      | EmptyString => EmptyString
      | String c s' =>
          if HasPrefix s old
          then new +:+ replace_from fuel' (drop (String.length old) s) old new
          else String c (replace_from fuel' s' old new)
      end
  end.

Fixpoint between (new s : string) : string :=
  match s with
  | EmptyString => new
  | String c s' => new +:+ String c (between new s')
  end.

(** [strings.ReplaceAll]. An empty [old] matches before every byte and at
    the end. *)
Definition ReplaceAll (s old new : string) : string :=
  match old with
  | EmptyString => between new s
  | String _ _ => replace_from (String.length s) s old new
  end.

(** Does the byte occur in the string; does the string begin with it; how
    many bytes of the string satisfy a test. *)
Fixpoint occurs (c : ascii) (s : string) : bool :=
  match s with
  | EmptyString => false
  | String x s' => Ascii.eqb x c || occurs c s'
  end.

Definition headIs (c : ascii) (s : string) : bool :=
  match s with
  | EmptyString => false
  | String x _ => Ascii.eqb x c
  end.

Fixpoint count (p : ascii -> bool) (s : string) : nat :=
  match s with
  | EmptyString => O
  | String x s' => ((if p x then 1 else 0) + count p s')%nat
  end.

Definition twice (c : ascii) : string := String c (String c EmptyString).

Fixpoint Join (elems : list string) (sep : string) : string :=
  match elems with
  | [] => EmptyString
  | [e] => e
  | e :: rest => e +:+ sep +:+ Join rest sep
  end.

End Strings.

(** * Package time: instants, durations and the calendar *)

Module GoTime.

(** Durations are counts of nanoseconds. *)
Definition Nanosecond : Z := 1.
Definition Second : Z := 1000000000 * Nanosecond.
Definition Minute : Z := 60 * Second.
Definition Hour : Z := 60 * Minute.
Definition Day : Z := 24 * Hour.

(** An instant: nanoseconds since the zero time (1 January of year 1,
    00:00:00 UTC), read in a location: a fixed offset, in seconds east of
    UTC. Locations whose offset changes over the year are outside this
    model. *)
Record Time := { abs : Z; loc : Z }.

Definition Truncate (t : Time) (d : Z) : Time :=
  if d <=? 0 then t else {| abs := abs t - abs t mod d; loc := loc t |}.

Definition Add (t : Time) (d : Z) : Time :=
  {| abs := abs t + d; loc := loc t |}.


(** The reading of the clock on the wall of the location, in nanoseconds
    since midnight of 1 January of year 1 there. *)
Definition wall (t : Time) : Z := abs t + loc t * Second.

(** The proleptic Gregorian calendar. Day 0 is 1 January of year 1. *)
Definition isLeap (year : Z) : bool :=
  (year mod 4 =? 0) && (negb (year mod 100 =? 0) || (year mod 400 =? 0)).

Definition daysBeforeYear (year : Z) : Z :=
  let y := year - 1 in 365 * y + y / 4 - y / 100 + y / 400.

(** Days of the year before the first of the month, months counted from 1;
    13 gives the length of the year. *)
Definition daysBefore (leap : bool) (month : Z) : Z :=
  let extra := if leap then 1 else 0 in
  if month <=? 1 then 0
  else if month =? 2 then 31
  else if month =? 3 then 59 + extra
  else if month =? 4 then 90 + extra
  else if month =? 5 then 120 + extra
  else if month =? 6 then 151 + extra
  else if month =? 7 then 181 + extra
  else if month =? 8 then 212 + extra
  else if month =? 9 then 243 + extra
  else if month =? 10 then 273 + extra
  else if month =? 11 then 304 + extra
  else if month =? 12 then 334 + extra
  else 365 + extra.

Definition yearOfDay (n : Z) : Z :=
  let y := 400 * n / 146097 + 1 in
  if daysBeforeYear (y + 1) <=? n then y + 1
  else if n <? daysBeforeYear y then y - 1
  else y.

Definition monthOfYearDay (leap : bool) (yday : Z) : Z :=
  if yday <? daysBefore leap 2 then 1
  else if yday <? daysBefore leap 3 then 2
  else if yday <? daysBefore leap 4 then 3
  else if yday <? daysBefore leap 5 then 4
  else if yday <? daysBefore leap 6 then 5
  else if yday <? daysBefore leap 7 then 6
  else if yday <? daysBefore leap 8 then 7
  else if yday <? daysBefore leap 9 then 8
  else if yday <? daysBefore leap 10 then 9
  else if yday <? daysBefore leap 11 then 10
  else if yday <? daysBefore leap 12 then 11
  else 12.

(** Year, month and day of day number [n]. *)
Definition civil (n : Z) : Z * Z * Z :=
  let year := yearOfDay n in
  let yday := n - daysBeforeYear year in
  let month := monthOfYearDay (isLeap year) yday in
  (year, month, yday - daysBefore (isLeap year) month + 1).

(** The day number of a date; a month outside 1..12 and a day outside the
    month carry over, as [time.Date] normalises them. *)
Definition dayNumber (year month day : Z) : Z :=
  let year' := year + (month - 1) / 12 in
  let month' := (month - 1) mod 12 + 1 in
  daysBeforeYear year' + daysBefore (isLeap year') month' + (day - 1).

(** [t.Date()] *)
Definition Time_Date (t : Time) : Z * Z * Z := civil (wall t / Day).

(** [time.Date(year, month, day, hour, min, sec, nsec, loc)] *)
Definition Date (year month day hour min sec nsec : Z) (location : Z) : Time :=
  {| abs := dayNumber year month day * Day + hour * Hour + min * Minute
            + sec * Second + nsec - location * Second;
     loc := location |}.

(** [time.Time{}] *)
Definition zeroTime : Time := {| abs := 0; loc := 0 |}.

End GoTime.

(** * Package os: files *)

Module Os.

(** The disk: the content of each file, the error (if any) that opening a
    given name runs into, and the error (if any) that writes run into. *)
Record FS := {
  files : gmap string string;
  openError : string -> option string;
  writeError : option string
}.

Definition set_files (fs : FS) (fm : gmap string string) : FS :=
  {| files := fm; openError := openError fs; writeError := writeError fs |}.

Definition content (fs : FS) (name : string) : string :=
  default "" (files fs !! name).

(** [os.Remove]; the caller drops the error. *)
Definition Remove (fs : FS) (name : string) : FS :=
  set_files fs (delete name (files fs)).

(** [os.OpenFile(name, O_APPEND|O_CREATE|O_WRONLY, 0644)]: the name of the
    open file, or the error. *)
Definition OpenFile (fs : FS) (name : string) : FS * (string * option string) :=
  match openError fs name with
  | Some e => (fs, ("", Some e))
  | None =>
      match files fs !! name with
      | Some _ => (fs, (name, None))
      | None => (set_files fs (<[name := ""]> (files fs)), (name, None))
      end
  end.

(** [f.Stat()] then [fi.Size()] *)
Definition Size (fs : FS) (name : string) : Z :=
  Z.of_nat (String.length (content fs name)).

(** [f.WriteString] on a file opened for appending: all of it or, on a
    failing disk, none of it. *)
Definition WriteString (fs : FS) (name data : string) : FS * option string :=
  match writeError fs with
  | Some e => (fs, Some e)
  | None => (set_files fs (<[name := content fs name +:+ data]> (files fs)), None)
  end.

Fixpoint zeros (n : nat) : string :=
  match n with
  | O => EmptyString
  | S n' => String Ascii.zero (zeros n')
  end.

(** [os.Truncate]; the caller drops the error. A negative size is refused,
    a size beyond the end pads with zero bytes. *)
Definition Truncate (fs : FS) (name : string) (size : Z) : FS :=
  match files fs !! name with
  | None => fs
  | Some c =>
      if size <? 0 then fs
      else
        let n := Z.to_nat size in
        set_files fs (<[name := Strings.take n c +:+ zeros (n - String.length c)]> (files fs))
  end.

End Os.

(** * Package daemon: the report streamer *)

Module StreamOutput.
Import Strings GoTime Os.

(** [minimumTimeUnit]: an [int] with six named values. *)
Definition SECOND : Z := 0.
Definition MINUTE : Z := 1.
Definition HOUR : Z := 2.
Definition DAY : Z := 3.
Definition MONTH : Z := 4.
Definition YEAR : Z := 5.

Record timeUnitMapping := { input : string; goFormat : string; unit : Z }.

Definition timeUnitMappings : list timeUnitMapping :=
  [ {| input := "YYYY"; goFormat := "2006"; unit := YEAR |};
    {| input := "YY"; goFormat := "06"; unit := YEAR |};
    {| input := "MM"; goFormat := "01"; unit := MONTH |};
    {| input := "DD"; goFormat := "02"; unit := DAY |};
    {| input := "HH"; goFormat := "15"; unit := HOUR |};
    {| input := "mm"; goFormat := "04"; unit := MINUTE |};
    {| input := "SS"; goFormat := "05"; unit := SECOND |} ].

(** One turn of the loop of [convertPatternToGoTimeFormat]. *)
Definition applyMapping (acc : string * Z) (mapping : timeUnitMapping) : string * Z :=
  let '(formatted, smallestUnit) := acc in
  if Contains formatted (input mapping)
  then (ReplaceAll formatted (input mapping) (goFormat mapping), unit mapping)
  else (formatted, smallestUnit).

Definition convertPatternToGoTimeFormat (pattern : string) : string * Z * option string :=
  let '(formatted, smallestUnit) := fold_left applyMapping timeUnitMappings (pattern, YEAR) in
  if String.eqb formatted pattern
  then ("", 0, Some "no valid time unit placeholders found in pattern")
  else (formatted, smallestUnit, None).

(** [calculateNextRollover], with the reading of [time.Now()] as an
    argument. *)
Definition calculateNextRollover (smallestUnit : Z) (now : Time) : Time * option string :=
  if smallestUnit =? SECOND then (Add (GoTime.Truncate now Second) Second, None)
  else if smallestUnit =? MINUTE then (Add (GoTime.Truncate now Minute) Minute, None)
  else if smallestUnit =? HOUR then (Add (GoTime.Truncate now Hour) Hour, None)
  else if smallestUnit =? DAY then
    let '(year, month, day) := Time_Date now in
    (Add (Date year month day 0 0 0 0 (loc now)) (24 * Hour), None)
  else if smallestUnit =? MONTH then
    let '(year, month, _) := Time_Date now in
    let location := loc now in
    let '(year, month) := if month =? 12 then (year + 1, 1) else (year, month + 1) in
    (Date year month 1 0 0 0 0 location, None)
  else if smallestUnit =? YEAR then
    let '(year, _, _) := Time_Date now in
    let location := loc now in
    let year := year + 1 in
    (Date year 1 1 0 0 0 0 location, None)
  else (zeroTime, Some "unknown smallest time unit").

(** The regular expression [\{([^}]+)\}]. *)

(** The longest run of bytes other than the closing brace at the head of
    [s], and what follows it. *)
Fixpoint spanInner (s : string) : string * string :=
  match s with
  | EmptyString => (EmptyString, EmptyString)
  | String c s' =>
      if Ascii.eqb c "}" then (EmptyString, s)
      else let '(inner, rest) := spanInner s' in (String c inner, rest)
  end.

(** A match at the head of [s]: the group and what follows the match. *)
Definition matchHere (s : string) : option (string * string) :=
  match s with
  | String c s' =>
      if Ascii.eqb c "{" then
        match spanInner s' with
        | (String i inner, String _ rest) => Some (String i inner, rest)
        | _ => None
        end
      else None
  | EmptyString => None
  end.

(** [FindStringSubmatch]: the leftmost match and its group, or nil. *)
Fixpoint FindStringSubmatch (s : string) : list string :=
  match matchHere s with
  | Some (inner, _) => [("{" +:+ inner +:+ "}"); inner]
  | None =>
      match s with
      | EmptyString => []
      | String _ s' => FindStringSubmatch s'
      end
  end.

(** [ReplaceAllString] with a replacement that is taken as it is. *)
Fixpoint replaceMatches (fuel : nat) (s repl : string) : string :=
  match fuel with
  | O => s
  | S fuel' =>
      match matchHere s with
      | Some (_, rest) => repl +:+ replaceMatches fuel' rest repl
      | None =>
          match s with
          | EmptyString => EmptyString
          | String c s' => String c (replaceMatches fuel' s' repl)
          end
      end
  end.

Definition ReplaceAllString (s repl : string) : string :=
  replaceMatches (String.length s) s repl.

(** The separator [",\n"]. *)
Definition commaNewline : string := String "," (String "010" EmptyString).

Section Streamer.

(** [time.Time.Format] and [json.Marshal] are library calls. *)
Variable Format : Time -> string -> string.
Variable Marshal : ValidationError -> string.

(** The first half of [openReportFile], with the reading of [time.Now()]
    as an argument: the name of the report file and the instant the
    rollover channel fires at (none for a nil channel), or the error. A
    name without a placeholder is removed from the disk. *)
Definition nameReportFile (reportFile : string) (now : Time) (fs : FS)
  : FS * string * option Time + string :=
  let matches := FindStringSubmatch reportFile in
  match matches with
  | _ :: pattern :: _ =>
      let '(goTimeFormat, smallestUnit, err) := convertPatternToGoTimeFormat pattern in
      match err with
      | Some e => inr e
      | None =>
          let filename := ReplaceAllString reportFile (Format now goTimeFormat) in
          let '(nextRollover, err) := calculateNextRollover smallestUnit now in
          match err with
          | Some _ => inl (fs, filename, None)
          | None => inl (fs, filename, Some nextRollover)
          end
      end
  | _ => inl (Remove fs reportFile, reportFile, None)
  end.

(** [openReportFile]: the disk afterwards, the open file, the rollover
    channel, and the error. *)
Definition openReportFile (reportFile : string) (now : Time) (fs : FS)
  : FS * (option string * option Time * option string) :=
  match nameReportFile reportFile now fs with
  | inr e => (fs, (None, None, Some e))
  | inl (fs, filename, rolloverChan) =>
      (* Open the file. *)
      let '(fs, (f, err)) := OpenFile fs filename in
      match err with
      | Some e => (fs, (None, None, Some e))
      | None =>
          if Size fs f =? 0 then
            let '(fs, e) := WriteString fs f "[]" in
            (* the test is on [err], the error of [OpenFile] *)
            match err with
            | Some _ => (fs, (None, None, e))
            | None => (fs, (Some f, rolloverChan, None))
            end
          else (fs, (Some f, rolloverChan, None))
      end
  end.

(** The state of the streamer and of the goroutine it starts. *)
Record Streamer := {
  reportFile : string;
  stream : bool;
  streamViolations : list ValidationError;
  disk : FS;
  f : string;
  rotateChan : option Time;
  listening : bool
}.

(** What the goroutine's [select] receives. *)
Inductive Event :=
| Violations (violations : list ValidationError)
| Rotate (now : Time).

(** One turn of the loop over a batch of [len] violations: the violation,
    and the separator unless it is the last. *)
Definition writeViolation (f : string) (len : nat) (fs : FS) (iv : nat * ValidationError) : FS :=
  let '(i, v) := iv in
  let fs := fst (WriteString fs f (Marshal v)) in
  if Z.of_nat i <? Z.of_nat len - 1
  then fst (WriteString fs f commaNewline) else fs.

(** [for i, v := range violations] *)
Definition writeViolations (fs : FS) (f : string) (violations : list ValidationError) : FS :=
  fold_left (writeViolation f (length violations))
            (combine (seq 0 (length violations)) violations) fs.

(** The body of [case violations := <-ws.streamChan] when streaming is on. *)
Definition appendBatch (fs : FS) (f : string) (violations : list ValidationError) : FS :=
  let size := Size fs f in
  let fs := Os.Truncate fs f (size - 1) in
  let fs := if 2 <? size then fst (WriteString fs f commaNewline) else fs in
  let fs := writeViolations fs f violations in
  fst (WriteString fs f "]").

(** [listenForValidationErrors]: the set-up, up to the start of the
    goroutine. *)
Definition listenForValidationErrors (report : string) (streaming : bool) (now : Time) (fs : FS)
  : Streamer :=
  match openReportFile report now fs with
  | (fs', (Some f, rotateChan, None)) =>
      {| reportFile := report; stream := streaming; streamViolations := [];
         disk := fs'; f := f; rotateChan := rotateChan; listening := true |}
  | (fs', _) =>
      {| reportFile := report; stream := streaming; streamViolations := [];
         disk := fs'; f := ""; rotateChan := None; listening := false |}
  end.

(** One turn of the goroutine's loop. *)
Definition step (ws : Streamer) (ev : Event) : Streamer :=
  if negb (listening ws) then ws
  else
    match ev with
    | Violations violations =>
        if stream ws then
          {| reportFile := reportFile ws; stream := stream ws;
             streamViolations := streamViolations ws ++ violations;
             disk := appendBatch (disk ws) (f ws) violations;
             f := f ws; rotateChan := rotateChan ws; listening := true |}
        else ws
    | Rotate now =>
        match rotateChan ws with
        | None => ws
        | Some _ =>
            match openReportFile (reportFile ws) now (disk ws) with
            | (fs', (Some f', rotateChan', None)) =>
                {| reportFile := reportFile ws; stream := stream ws;
                   streamViolations := streamViolations ws;
                   disk := fs'; f := f'; rotateChan := rotateChan'; listening := true |}
            | (fs', _) =>
                {| reportFile := reportFile ws; stream := stream ws;
                   streamViolations := streamViolations ws;
                   disk := fs'; f := f ws; rotateChan := None; listening := false |}
            end
        end
    end.

Definition run (ws : Streamer) (events : list Event) : Streamer :=
  fold_left step events ws.

(** The text of a JSON array of the given violations, as the streamer lays
    it out. *)
Definition render (violations : list ValidationError) : string :=
  "[" +:+ Join (map Marshal violations) commaNewline +:+ "]".

(** The append as the specification words it: drop the closing bracket,
    write the separator when what remains is longer than 2 bytes, write
    the batch separated by commas, close the bracket. *)
Definition appendAsSpecified (content : string) (violations : list ValidationError) : string :=
  let remaining := Strings.take (String.length content - 1) content in
  let separator :=
    if (2 <? String.length remaining)%nat then commaNewline else EmptyString in
  remaining +:+ separator +:+ Join (map Marshal violations) commaNewline +:+ "]".

(** What holds of the streamer between appends: it listens and streams,
    the disk takes writes, and the open file holds the array of the
    violations seen so far. *)
Definition between_appends (ws : Streamer) : Prop :=
  listening ws = true /\ stream ws = true /\ writeError (disk ws) = None /\
  content (disk ws) (f ws) = render (streamViolations ws).

End Streamer.

(** The smallest token of a pattern, as the specification words it. *)
Definition smallestTokenUnit (pattern : string) : Z :=
  if Contains pattern "SS" then SECOND
  else if Contains pattern "mm" then MINUTE
  else if Contains pattern "HH" then HOUR
  else if Contains pattern "DD" then DAY
  else if Contains pattern "MM" then MONTH
  else YEAR.

(** The bytes the tokens are made of. *)
Definition tokenLetter (c : ascii) : bool := occurs c "YMDHmS".

Definition hasToken (pattern : string) : bool :=
  existsb (fun mapping => Contains pattern (input mapping)) timeUnitMappings.

(** The instants a cadence ticks at. Seconds, minutes and hours are whole
    multiples of the unit since the zero time, which is what
    [Time.Truncate] rounds to; days, months and years begin at midnight on
    the wall clock of the location. *)
Definition onBoundary (u : Z) (t : Time) : Prop :=
  if u =? SECOND then abs t mod Second = 0
  else if u =? MINUTE then abs t mod Minute = 0
  else if u =? HOUR then abs t mod Hour = 0
  else if u =? DAY then wall t mod Day = 0
  else if u =? MONTH then
    wall t mod Day = 0 /\ snd (Time_Date t) = 1
  else
    wall t mod Day = 0 /\ snd (fst (Time_Date t)) = 1 /\ snd (Time_Date t) = 1.

(** [next] is the first tick of the cadence after [now]. *)
Definition nextBoundary (u : Z) (now next : Time) : Prop :=
  loc next = loc now /\
  abs now < abs next /\
  onBoundary u next /\
  forall t, loc t = loc now -> abs now < abs t < abs next -> ~ onBoundary u t.

(** A plain layout of a violation, to run the streamer with. *)
Definition bracesMessage (v : ValidationError) : string :=
  "{" +:+ Message v +:+ "}".

End StreamOutput.

(** * Package staticMock: the look-up and the handler *)

Module MockHandler.
Import StaticMock.

(** Modelled from the spec: the response template of a mock definition
    (status code, optional headers, optional body); its declaration is not
    among the sources. *)
Record StaticMockDefinitionResponse := {
  rStatusCode : Z;
  rHeader : option (gmap string value);
  rBody : value
}.

(** [StaticMockDefinition] *)
Record StaticMockDefinition := {
  defRequest : StaticMockDefinitionRequest;
  defResponse : StaticMockDefinitionResponse
}.

(** An [http.Response] with its body. *)
Record MockedResponse := { head : Response; responseBody : string }.

(** Modelled from the spec: the structured error that
    [shared.GenerateError] builds, with the fields message, code, type,
    detail and cause. *)
Record WiretapError := {
  errMessage : string;
  errCode : Z;
  errType : string;
  errDetail : string;
  errCause : PanicValue
}.

Definition GenerateError (message : string) (code : Z) (type detail : string)
    (cause : PanicValue) : WiretapError :=
  {| errMessage := message; errCode := code; errType := type;
     errDetail := detail; errCause := cause |}.

(** What the handler asks of the wiretap service, with the request as it is
    at the time of the call. *)
Inductive ServiceCall :=
| HandleHttpRequest (request : Request)
| HandleStaticMockResponse (request : Request) (response : MockedResponse).

(** The request in flight and the calls made to the wiretap service so
    far, oldest first. *)
Record Handling := { inFlight : Request; calls : list ServiceCall }.

(** A computation on the request, run on the request in flight. *)
Definition onRequest {A} (m : M Request A) : M Handling A :=
  fun st =>
    let '(out, r) := m (inFlight st) in
    (out, {| inFlight := r; calls := calls st |}).

Definition callService (c : Request -> ServiceCall) : M Handling unit :=
  fun st => (Ret tt, {| inFlight := inFlight st; calls := calls st ++ [c (inFlight st)] |}).

(** All that a mock without body selector asks of a request. *)
Definition nonBodySelectorsHold (IsSubset : value -> value -> bool)
    (StringCompare : string -> string -> bool)
    (mock : StaticMockDefinitionRequest) (incoming : Request) : bool :=
  (String.eqb (mHost mock) "" || StringCompare (mHost mock) (Host incoming))
  && String.eqb (Method incoming) (mMethod mock)
  && (String.eqb (mUrlPath mock) "" || StringCompare (mUrlPath mock) (Path (Url incoming)))
  && match mHeader mock with
     | Some h => compareHeaders IsSubset h incoming
     | None => true
     end
  && match mQueryParams mock with
     | Some q => compareQueryParams IsSubset q (Query (Url incoming))
     | None => true
     end.

Definition isJsonBody (v : value) : bool :=
  match v with VObj _ | VArr _ => true | _ => false end.

Definition isNonEmptyStringBody (v : value) : bool :=
  match v with VStr s => negb (String.eqb s "") | _ => false end.

Section Handler.

Variable IsSubset : value -> value -> bool.
Variable StringCompare : string -> string -> bool.
Variable Unmarshal : string -> option value.

(** [getStaticMockResponse] and [shared.MarshalError] are called, not
    defined, here. *)
Variable getStaticMockResponse : StaticMockDefinition -> M Request MockedResponse.
Variable MarshalError : WiretapError -> string.

Open Scope go_scope.

(** [checkStaticMockExists]: the definitions in their order, up to the
    first that matches. *)
Fixpoint checkStaticMockExists (mockDefinitions : list StaticMockDefinition)
  : M Request (option StaticMockDefinition) :=
  match mockDefinitions with
  | [] => ret None
  | mockDefinition :: rest =>
      found <- isRequestMatch IsSubset StringCompare Unmarshal (defRequest mockDefinition) ;;
      if found then ret (Some mockDefinition) else checkStaticMockExists rest
  end.

(** The body of [handleStaticMockRequest], below its deferred function. *)
Definition handleBody (mockDefinitions : list StaticMockDefinition) : M Handling unit :=
  matchedMockDefinition <- onRequest (checkStaticMockExists mockDefinitions) ;;
  match matchedMockDefinition with
  | None =>
      (* no static mock found, pass the request to the wiretap service *)
      callService HandleHttpRequest
  | Some matched =>
      response <- onRequest (getStaticMockResponse matched) ;;
      callService (fun request => HandleStaticMockResponse request response)
  end.

(** The message the deferred function settles on: that of an [error] when
    it has one, the handler's own otherwise. *)
Definition recoveredMessage (r : PanicValue) : string :=
  match r with
  | PError msg => if negb (String.eqb msg "") then msg else "Error in static mock handler"
  | PString _ => "Error in static mock handler"
  end.

(** [handleStaticMockRequest] *)
Definition handleStaticMockRequest (mockDefinitions : list StaticMockDefinition)
    (st : Handling) : Handling :=
  match handleBody mockDefinitions st with
  | (Ret _, st') => st'
  | (Panic r, st') =>
      let errorMessage := recoveredMessage r in
      let errorBody :=
        MarshalError (GenerateError errorMessage 500 "Internal server error" "" r) in
      let errorResponse :=
        {| head := {| StatusCode := 500; RespHeader := ∅ |}; responseBody := errorBody |} in
      snd (callService (fun request => HandleStaticMockResponse request errorResponse) st')
  end.

End Handler.

(** A mock response to run the handler with: the status of the template and
    no body. *)
Definition statusOnly (d : StaticMockDefinition) : M Request MockedResponse :=
  ret {| head := {| StatusCode := rStatusCode (defResponse d); RespHeader := ∅ |};
         responseBody := "" |}.

Definition messageOnly (e : WiretapError) : string := errMessage e.

End MockHandler.

(** * Package daemon: the request that [callAPI] sends *)

Module Forwarding.

(** The redirection fields of [shared.WiretapConfiguration]. *)
Record WiretapConfiguration := {
  RedirectProtocol : string;
  RedirectHost : string;
  RedirectPort : string
}.

Definition set_ReqHeader (r : Request) (h : Header) : Request :=
  {| Host := Host r; Method := Method r; Url := Url r;
     ReqHeader := h; Body := Body r |}.

Section Rewrite.

(** [cloneRequest] and [reconstructURL] are called, not defined, here.
    Modelled from the spec: the clone is independent of the original, so
    that setting a header of the clone leaves the original as it was. *)
Variable cloneRequest : Request -> string -> string -> string -> Request.
Variable reconstructURL : Request -> string -> string -> string -> string.

(** The request that [callAPI] hands to the client: the clone, with its
    referer rewritten when it has one. *)
Definition forwardedRequest (req : Request) (config : WiretapConfiguration) : Request :=
  let newReq :=
    cloneRequest req (RedirectProtocol config) (RedirectHost config) (RedirectPort config) in
  (* re-write referer *)
  if negb (String.eqb (Header_Get (ReqHeader newReq) "Referer") "") then
    (* retain original referer for logging *)
    let newReq :=
      set_ReqHeader newReq
        (Header_Set (ReqHeader newReq) "X-Original-Referer"
           (Header_Get (ReqHeader newReq) "Referer")) in
    set_ReqHeader newReq
      (Header_Set (ReqHeader newReq) "Referer"
         (reconstructURL req (RedirectProtocol config) (RedirectHost config)
            (RedirectPort config)))
  else newReq.

End Rewrite.

End Forwarding.

(** * Package daemon: calls to the validator adapter in sequence *)

Module Calls.
Import Validate.

Inductive Call :=
| CallValidateRequest (modelRequest : ModelRequest) (httpRequest : Request)
| CallValidateResponse (request : ModelRequest) (returnedResponse : Response).

(** The ID of the request a call is about. *)
Definition callId (c : Call) : string :=
  match c with
  | CallValidateRequest modelRequest _ => Id modelRequest
  | CallValidateResponse request _ => Id request
  end.

Section Sequence.

Variable ValidateHttpRequest : Request -> Outcome (list ValidationError).
Variable ValidateHttpResponse : Request -> Response -> Outcome (list ValidationError).
Variable BuildHttpTransaction : HttpTransactionConfig -> HttpTransaction.
Variable BuildResponse : ModelRequest -> Response -> HttpTransaction.

(** The service after one call, whatever the call ends in. *)
Definition perform (ws : WiretapService) (c : Call) : WiretapService :=
  match c with
  | CallValidateRequest modelRequest httpRequest =>
      snd (ValidateRequest ValidateHttpRequest BuildHttpTransaction modelRequest httpRequest ws)
  | CallValidateResponse request returnedResponse =>
      snd (ValidateResponse ValidateHttpResponse BuildResponse request returnedResponse ws)
  end.

Definition performAll (ws : WiretapService) (cs : list Call) : WiretapService :=
  fold_left perform cs ws.

End Sequence.

End Calls.

(* ===================================================================== *)
(** * Properties *)
(* ===================================================================== *)

(** ** The static mock matcher *)

Module MatcherFacts.
Import StaticMock.

Section Facts.

Variable IsSubset : value -> value -> bool.
Variable StringCompare : string -> string -> bool.
Variable Unmarshal : string -> option value.

Lemma compareEntry_split incoming key v found :
  compareEntry IsSubset incoming key v found
  = found && entry_holds IsSubset incoming key v.
Proof.
  unfold entry_holds, compareEntry.
  destruct v; simpl; try reflexivity; now rewrite andb_true_r.
Qed.

Lemma fold_entries_spec incoming (m : gmap string value) :
  map_fold (compareEntry IsSubset incoming) true m = true <->
  map_Forall (fun k v => entry_holds IsSubset incoming k v = true) m.
Proof.
  apply (map_fold_weak_ind
           (fun (b : bool) (m : gmap string value) =>
              b = true <-> map_Forall (fun k v => entry_holds IsSubset incoming k v = true) m)).
  - split; [intros _; apply map_Forall_empty | reflexivity].
  - intros i x m' r Hnone IH.
    rewrite compareEntry_split, andb_true_iff, IH, map_Forall_insert by exact Hnone.
    tauto.
Qed.

(** The loop of [compareHeaders] succeeds exactly when every entry does:
    the order in which Go visits the map does not matter. *)
Lemma compareHeaders_spec (mockHeaders : gmap string value) (incoming : Request) :
  compareHeaders IsSubset mockHeaders incoming = true <->
  forall k v, mockHeaders !! k = Some v -> entry_holds IsSubset (ReqHeader incoming) k v = true.
Proof. unfold compareHeaders. apply fold_entries_spec. Qed.

Lemma compareQueryParams_spec (mockQueryParams : gmap string value) (incomingQueries : Header) :
  compareQueryParams IsSubset mockQueryParams incomingQueries = true <->
  forall k v, mockQueryParams !! k = Some v -> entry_holds IsSubset incomingQueries k v = true.
Proof. unfold compareQueryParams. apply fold_entries_spec. Qed.

(** A string entry and an array entry are compared by [IsSubset]. *)
Lemma entry_holds_string incoming key s :
  entry_holds IsSubset incoming key (VStr s) =
  IsSubset (VArr [VStr s]) (VArr (map VStr (index incoming key))).
Proof. reflexivity. Qed.

Lemma entry_holds_array incoming key xs :
  entry_holds IsSubset incoming key (VArr xs) =
  IsSubset (VArr xs) (VArr (map VStr (index incoming key))).
Proof. reflexivity. Qed.

(** An entry of any other type is skipped by the type switch. *)
Lemma entry_holds_other incoming key v :
  (forall s, v <> VStr s) -> (forall xs, v <> VArr xs) ->
  entry_holds IsSubset incoming key v = true.
Proof.
  intros Hs Ha. destruct v; try reflexivity.
  - now destruct (Hs s).
  - now destruct (Ha xs).
Qed.

(** C1 (the code departs from the claim): an entry that is neither a
    string nor an array falls through the type switch of [compareHeaders]
    and [compareQueryParams], which have no default case, so it leaves
    [found] as it is. A mock whose Header map holds the number 3 and whose
    QueryParams map holds an object matches every GET request, whatever it
    carries. *)
Theorem unsupported_entry_type_still_matches
    (host : string) (url : URL) (hdr : Header) (body : Reader) :
  let mock := {| mHost := ""; mMethod := "GET"; mUrlPath := "";
                 mHeader := Some {[ "X-Retries" := VNum 3 ]};
                 mQueryParams := Some {[ "page" := VObj [] ]};
                 mBody := VNull |} in
  let incoming := {| Host := host; Method := "GET"; Url := url;
                     ReqHeader := hdr; Body := body |} in
  compareHeaders IsSubset {[ "X-Retries" := VNum 3 ]} incoming = true /\
  compareQueryParams IsSubset {[ "page" := VObj [] ]} (Query url) = true /\
  isRequestMatch IsSubset StringCompare Unmarshal mock incoming = (Ret true, incoming).
Proof.
  intros mock incoming.
  assert (Hh : compareHeaders IsSubset {[ "X-Retries" := VNum 3 ]} incoming = true).
  { apply compareHeaders_spec. intros k v Hkv.
    apply lookup_singleton_Some in Hkv as [_ <-]. reflexivity. }
  assert (Hq : compareQueryParams IsSubset {[ "page" := VObj [] ]} (Query url) = true).
  { apply compareQueryParams_spec. intros k v Hkv.
    apply lookup_singleton_Some in Hkv as [_ <-]. reflexivity. }
  split; [exact Hh | split; [exact Hq |]].
  unfold isRequestMatch, bind, get, ret, mock. simpl.
  rewrite Hh, Hq. reflexivity.
Qed.

(** The JSON path hands the body back: after [getBodyFromHttpRequest] the
    request can be read again from the start. *)
Lemma getBodyFromHttpRequest_restores (incoming : Request) (bs : string) :
  Body incoming = NewReader bs ->
  snd (getBodyFromHttpRequest Unmarshal incoming) = incoming.
Proof.
  destruct incoming as [h m u hd b]. simpl. intros ->.
  unfold getBodyFromHttpRequest, bind, get, put, ret, panic. simpl.
  destruct (String.length bs =? 0)%nat; [reflexivity |].
  destruct (Unmarshal bs); reflexivity.
Qed.

(** The string path of [compareBody]: the comparison is byte-exact, and the
    body is left exhausted. *)
Lemma compareBody_string (mock : StaticMockDefinitionRequest) (incoming : Request)
    (mb bs : string) :
  mBody mock = VStr mb ->
  Body incoming = NewReader bs ->
  compareBody IsSubset Unmarshal mock incoming
  = (Ret (String.eqb bs mb), set_Body incoming (NewReader "")).
Proof.
  intros Hm Hb. unfold compareBody, bind, get, put, ret. rewrite Hm, Hb. simpl.
  destruct (String.eqb bs mb); reflexivity.
Qed.

(** C6 (the code departs from the claim): the mock body [ping] is compared
    with the request body [ping] and found equal, but [compareBody] reads
    the body to its end and does not put it back, as
    [getBodyFromHttpRequest] does: whoever reads the request next finds it
    empty. A differing body is rejected and lost the same way. *)
Theorem string_body_is_not_restored
    (host meth : string) (url : URL) (hdr : Header) :
  let mock := {| mHost := ""; mMethod := meth; mUrlPath := "";
                 mHeader := None; mQueryParams := None; mBody := VStr "ping" |} in
  let incoming (bs : string) :=
    {| Host := host; Method := meth; Url := url; ReqHeader := hdr;
       Body := NewReader bs |} in
  isRequestMatch IsSubset StringCompare Unmarshal mock (incoming "ping")
  = (Ret true, incoming "") /\
  isRequestMatch IsSubset StringCompare Unmarshal mock (incoming "pong")
  = (Ret false, incoming "") /\
  pending (Body (snd (compareBody IsSubset Unmarshal mock (incoming "ping"))))
  <> pending (Body (incoming "ping")).
Proof.
  intros mock incoming.
  unfold isRequestMatch, bind, get, ret, mock, incoming. simpl.
  rewrite String.eqb_refl. simpl. repeat split. discriminate.
Qed.

(** C9: if a request matches a mock definition then it matches the
    definition with any one selector field removed (Host or UrlPath set to
    the empty string, Header, QueryParams or Body made absent). *)
Theorem removing_selector_keeps_match
    (sel : Selector) (mock : StaticMockDefinitionRequest) (incoming incoming' : Request) :
  isRequestMatch IsSubset StringCompare Unmarshal mock incoming = (Ret true, incoming') ->
  exists incoming'',
    isRequestMatch IsSubset StringCompare Unmarshal (remove sel mock) incoming
    = (Ret true, incoming'').
Proof.
  unfold isRequestMatch, bind, get, ret.
  destruct mock as [mh mm mu mhd mq mb]; simpl.
  destruct (negb (String.eqb mh "") && negb (StringCompare mh (Host incoming))) eqn:Eh;
    [discriminate |].
  destruct (negb (String.eqb (Method incoming) mm)) eqn:Em; [discriminate |].
  destruct (negb (String.eqb mu "") && negb (StringCompare mu (Path (Url incoming)))) eqn:Eu;
    [discriminate |].
  destruct (match mhd with
            | Some h => negb (compareHeaders IsSubset h incoming)
            | None => false
            end) eqn:Ehd; [discriminate |].
  destruct (match mq with
            | Some q => negb (compareQueryParams IsSubset q (Query (Url incoming)))
            | None => false
            end) eqn:Eq; [discriminate |].
  intros Hbody.
  destruct sel; simpl; rewrite ?Eh, ?Em, ?Eu, ?Ehd, ?Eq; simpl; eauto.
Qed.

End Facts.

(** The header scenario of the specification: the mock asks for
    [Accept: application/json], the request offers two media types; the
    match survives the removal of the header selector. *)
Lemma removing_selector_keeps_match_witness :
  let mock := {| mHost := "API.example.com"; mMethod := "GET"; mUrlPath := "/pets";
                 mHeader := Some {[ "Accept" := VArr [VStr "application/json"] ]};
                 mQueryParams := None; mBody := VNull |} in
  let incoming := {| Host := "api.example.com"; Method := "GET";
                     Url := {| Path := "/Pets"; Query := ∅ |};
                     ReqHeader := {[ "Accept" := ["text/html"; "application/json"] ]};
                     Body := NewReader "" |} in
  isRequestMatch Shared.IsSubset Shared.StringCompare Shared.decode_only_empty mock incoming
  = (Ret true, incoming) /\
  exists incoming'',
    isRequestMatch Shared.IsSubset Shared.StringCompare Shared.decode_only_empty
      (remove SelHeader mock) incoming = (Ret true, incoming'').
Proof.
  intros mock incoming. split.
  - vm_compute. reflexivity.
  - apply (removing_selector_keeps_match Shared.IsSubset Shared.StringCompare
             Shared.decode_only_empty SelHeader mock incoming incoming).
    vm_compute. reflexivity.
Defined.

End MatcherFacts.

(** ** The transport wrapper *)

Module TransportFacts.
Import Transport.

Lemma RoundTrip_Answered tr resp :
  RoundTrip tr (Answered resp)
  = ({| capturedCookieHeaders := capturedCookieHeaders tr ++ cookies [resp] |}, Answered resp).
Proof.
  unfold RoundTrip, cookies. cbn [map]. rewrite filter_cons, filter_nil.
  destruct (String.eqb_spec (Header_Get (RespHeader resp) "Set-Cookie") "") as [E|E]; simpl.
  - rewrite decide_False by (intros H; now apply H).
    rewrite app_nil_r. now destruct tr.
  - now rewrite decide_True by exact E.
Qed.

Lemma Do_follow tr resp (rest : list RoundTripResult) :
  rest <> [] ->
  Do tr (Answered resp :: rest)
  = Do {| capturedCookieHeaders := capturedCookieHeaders tr ++ cookies [resp] |} rest.
Proof.
  intros Hrest. cbn [Do]. rewrite RoundTrip_Answered.
  destruct rest; [contradiction | reflexivity].
Qed.




(** The cookie that is promoted is the one of the earliest response that
    set one. *)
Lemma first_cookie_is_earliest (before : list Response) (r : Response) (after : list Response) :
  cookies before = [] ->
  Header_Get (RespHeader r) "Set-Cookie" <> "" ->
  exists others,
    cookies (before ++ r :: after) = Header_Get (RespHeader r) "Set-Cookie" :: others.
Proof.
  intros Hb Hr. unfold cookies in *.
  rewrite map_app, filter_app, Hb. simpl.
  rewrite filter_cons, decide_True by exact Hr. eauto.
Qed.

End TransportFacts.

(** ** The validator adapter *)

Module ValidateFacts.
Import Validate.

(** The two loops that build [cleanedErrors]. *)
Lemma copy_loop (errs acc : list ValidationError) :
  fold_left (fun cleaned validationError => cleaned ++ [validationError]) errs acc
  = acc ++ errs.
Proof.
  revert acc. induction errs as [|e errs IH]; intros acc; simpl.
  - now rewrite app_nil_r.
  - rewrite IH, <- app_assoc. reflexivity.
Qed.

Lemma cleaning_loop (errs acc : list ValidationError) :
  fold_left (fun cleaned e =>
               if negb (IsPathMissingError e) then cleaned ++ [e] else cleaned) errs acc
  = acc ++ List.filter (fun e => negb (IsPathMissingError e)) errs.
Proof.
  revert acc. induction errs as [|e errs IH]; intros acc; simpl.
  - now rewrite app_nil_r.
  - rewrite IH. destruct (negb (IsPathMissingError e)); [|reflexivity].
    now rewrite <- app_assoc.
Qed.

Lemma length_pos_nonempty {A} (l : list A) :
  (0 <? length l)%nat = negb (match l with [] => true | _ => false end).
Proof. now destruct l. Qed.

Section Facts.

Variable ValidateHttpRequest : Request -> Outcome (list ValidationError).
Variable ValidateHttpResponse : Request -> Response -> Outcome (list ValidationError).
Variable BuildHttpTransaction : HttpTransactionConfig -> HttpTransaction.
Variable BuildResponse : ModelRequest -> Response -> HttpTransaction.


(** Without a document the validator is not consulted: there is nothing to
    report and nothing is sent on the channel. *)
Lemma ValidateResponse_without_document
    (ws : WiretapService) (request : ModelRequest) (returnedResponse : Response) :
  document ws && docModel ws = false ->
  exists ws',
    ValidateResponse ValidateHttpResponse BuildResponse request returnedResponse ws
    = (Ret [], ws') /\ streamChan ws' = streamChan ws.
Proof.
  intros Hno. unfold ValidateResponse, recovering, bind, get, call, ret.
  rewrite Hno. cbn. eauto.
Qed.

(** Whatever the adapter sends on the streamer channel is a non-empty
    batch. *)
Lemma ValidateResponse_sends_nonempty
    (ws ws' : WiretapService) (request : ModelRequest) (returnedResponse : Response)
    (out : Outcome (list ValidationError)) :
  Forall (fun batch => batch <> []) (streamChan ws) ->
  ValidateResponse ValidateHttpResponse BuildResponse request returnedResponse ws = (out, ws') ->
  Forall (fun batch => batch <> []) (streamChan ws').
Proof.
  intros Hall. unfold ValidateResponse, recovering, bind, get, call, ret.
  destruct (document ws && docModel ws).
  - destruct (ValidateHttpResponse (HttpRequest request) returnedResponse) as [errs|v].
    + rewrite cleaning_loop. cbn [app].
      destruct (List.filter _ errs) eqn:E; cbn; intros [= <- <-]; cbn; [exact Hall |].
      apply Forall_app. split; [exact Hall |]. now constructor.
    + destruct v; intros [= <- <-]; exact Hall.
  - cbn. intros [= <- <-]. exact Hall.
Qed.

Lemma ValidateRequest_sends_nonempty
    (ws ws' : WiretapService) (modelRequest : ModelRequest) (httpRequest : Request)
    (out : Outcome (list ValidationError)) :
  Forall (fun batch => batch <> []) (streamChan ws) ->
  ValidateRequest ValidateHttpRequest BuildHttpTransaction modelRequest httpRequest ws
  = (out, ws') ->
  Forall (fun batch => batch <> []) (streamChan ws').
Proof.
  intros Hall. unfold ValidateRequest, recovering, bind, get, call, ret.
  destruct (document ws && docModel ws).
  - destruct (ValidateHttpRequest httpRequest) as [errs|v].
    + rewrite copy_loop. cbn [app].
      destruct errs; cbn; intros [= <- <-]; cbn; [exact Hall |].
      apply Forall_app. split; [exact Hall |]. now constructor.
    + destruct v; intros [= <- <-]; exact Hall.
  - cbn. intros [= <- <-]. exact Hall.
Qed.

(** A validator that panics with a string is turned into one error. *)
Lemma string_panic_becomes_error
    (ws : WiretapService) (request : ModelRequest) (returnedResponse : Response)
    (text : string) :
  document ws = true -> docModel ws = true ->
  ValidateHttpResponse (HttpRequest request) returnedResponse = Panic (PString text) ->
  ValidateHttpRequest (HttpRequest request) = Panic (PString text) ->
  ValidateResponse ValidateHttpResponse BuildResponse request returnedResponse ws
  = (Ret [{| Message := "Error validating response: " +:+ text; pathMissing := false |}], ws)
  /\
  ValidateRequest ValidateHttpRequest BuildHttpTransaction request (HttpRequest request) ws
  = (Ret [{| Message := "Error validating request: " +:+ text; pathMissing := false |}], ws).
Proof.
  intros Hdoc Hmodel Hresp Hreq.
  unfold ValidateResponse, ValidateRequest, recovering, bind, get, call, ret.
  rewrite Hdoc, Hmodel, Hresp, Hreq. split; reflexivity.
Qed.

End Facts.


(** C7 (the code departs from the claim): the deferred function recovers
    the panic and then asserts [r.(string)]. A validator that panics with
    an [error] value, as [panic(err)] and every run-time error do, makes
    that assertion panic: neither [ValidateRequest] nor [ValidateResponse]
    returns, and no error is reported. *)
Theorem error_panic_escapes
    (store : gmap string Stored) (chan : list (list ValidationError))
    (sink : list Broadcast) (request : ModelRequest) (returnedResponse : Response)
    (msg : string) :
  let ws := {| document := true; docModel := true; transactionStore := store;
               streamChan := chan; broadcasts := sink |} in
  let escaped := Panic (PError "interface conversion: interface {} is error, not string") in
  ValidateResponse (fun _ _ => Panic (PError msg)) plainResponse request returnedResponse ws
  = (escaped, ws) /\
  ValidateRequest (fun _ => Panic (PError msg)) plainTransaction request (HttpRequest request) ws
  = (escaped, ws).
Proof. intros ws escaped. split; reflexivity. Qed.

(** C8 (the code departs from the claim): [ValidateRequest] builds the
    transaction and attaches the errors to it, and then puts the incoming
    [model.Request] in the store, not the transaction; [ValidateResponse]
    stores the transaction it builds. *)
Theorem ValidateRequest_stores_the_request
    (BuildHttpTransaction : HttpTransactionConfig -> HttpTransaction)
    (ws : WiretapService) (modelRequest : ModelRequest) (httpRequest : Request)
    (errs : list ValidationError) :
  let after :=
    snd (ValidateRequest (fun _ => Ret errs) BuildHttpTransaction modelRequest httpRequest ws) in
  transactionStore after !! Id modelRequest = Some (StoredRequest modelRequest) /\
  forall t, transactionStore after !! Id modelRequest <> Some (StoredTransaction t).
Proof.
  intros after.
  assert (H : transactionStore after !! Id modelRequest = Some (StoredRequest modelRequest)).
  { unfold after, ValidateRequest, recovering, bind, get, call, ret.
    destruct (document ws && docModel ws); rewrite ?copy_loop; cbn [app].
    - destruct errs; cbn; apply lookup_insert_eq.
    - cbn. apply lookup_insert_eq. }
  split; [exact H |]. intros t. rewrite H. discriminate.
Qed.

End ValidateFacts.

(** ** Strings *)

Module StringsFacts.
Import Strings.

Lemma append_cons (c : ascii) (s t : string) : String c s +:+ t = String c (s +:+ t).
Proof. reflexivity. Qed.

Lemma append_empty_l (t : string) : EmptyString +:+ t = t.
Proof. reflexivity. Qed.

Lemma append_empty_r (s : string) : s +:+ EmptyString = s.
Proof. induction s as [|c s IH]; [reflexivity |]. now rewrite append_cons, IH. Qed.

Lemma append_assoc (a b c : string) : (a +:+ b) +:+ c = a +:+ (b +:+ c).
Proof.
  induction a as [|x a IH]; [reflexivity |].
  now rewrite !append_cons, IH.
Qed.

Lemma length_append (a b : string) :
  String.length (a +:+ b) = (String.length a + String.length b)%nat.
Proof.
  induction a as [|x a IH]; [reflexivity |].
  rewrite append_cons. simpl. now rewrite IH.
Qed.

Lemma count_append p (a b : string) : count p (a +:+ b) = (count p a + count p b)%nat.
Proof.
  induction a as [|x a IH]; [reflexivity |].
  rewrite append_cons. simpl. rewrite IH. lia.
Qed.

Lemma HasPrefix_split (s prefix : string) :
  HasPrefix s prefix = true -> s = prefix +:+ drop (String.length prefix) s.
Proof.
  revert s. induction prefix as [|p prefix IH]; intros s H; [reflexivity |].
  destruct s as [|c s]; [discriminate |]. simpl in H.
  apply andb_true_iff in H as [Hc Hs]. apply Ascii.eqb_eq in Hc. subst c.
  rewrite append_cons. simpl. f_equal. now apply IH.
Qed.

Lemma HasPrefix_twice (c : ascii) (s : string) :
  HasPrefix s (twice c) =
  match s with
  | String x s' => Ascii.eqb x c && headIs c s'
  | EmptyString => false
  end.
Proof.
  destruct s as [|x [|y s]]; simpl; try reflexivity.
  destruct (Ascii.eqb x c), (Ascii.eqb y c); destruct s; reflexivity.
Qed.

Lemma Contains_cons (x : ascii) (s substr : string) :
  Contains (String x s) substr = HasPrefix (String x s) substr || Contains s substr.
Proof. reflexivity. Qed.

(** A doubled byte cannot begin inside a stretch the byte does not occur
    in. *)
Lemma Contains_twice_skip (c : ascii) (a t : string) :
  occurs c a = false -> Contains (a +:+ t) (twice c) = Contains t (twice c).
Proof.
  induction a as [|y a IH]; intros Ha; [reflexivity |].
  simpl in Ha. apply orb_false_iff in Ha as [Hy Ha].
  rewrite append_cons, Contains_cons, HasPrefix_twice, Hy. simpl. now apply IH.
Qed.

Lemma headIs_append (c : ascii) (a t : string) :
  a <> EmptyString -> occurs c a = false -> headIs c (a +:+ t) = false.
Proof.
  destruct a as [|y a]; [congruence |]. intros _ Ha.
  simpl in Ha. now apply orb_false_iff in Ha as [Hy _].
Qed.

Section Replace.

Variables old new : string.
Hypothesis old_nonempty : old <> EmptyString.
Hypothesis new_nonempty : new <> EmptyString.

(** Replacing [old] by [new] neither makes nor breaks a doubled byte that
    occurs in neither. *)
Lemma replace_from_twice (c : ascii) :
  occurs c old = false -> occurs c new = false ->
  forall (fuel : nat) (s : string),
    (String.length s <= fuel)%nat ->
    Contains (replace_from fuel s old new) (twice c) = Contains s (twice c) /\
    headIs c (replace_from fuel s old new) = headIs c s.
Proof.
  intros Hold Hnew. induction fuel as [|fuel IH]; intros s Hlen.
  - split; reflexivity.
  - destruct s as [|x s]; [split; reflexivity |].
    cbn [replace_from]. destruct (HasPrefix (String x s) old) eqn:Hp.
    + pose proof (HasPrefix_split _ _ Hp) as Hs.
      set (rest := drop (String.length old) (String x s)) in *.
      assert (Hrest : (String.length rest <= fuel)%nat).
      { apply (f_equal String.length) in Hs. rewrite length_append in Hs.
        destruct old; [congruence |]. simpl in Hs, Hlen. lia. }
      destruct (IH rest Hrest) as [IHc _]. split.
      * rewrite Contains_twice_skip by exact Hnew. rewrite IHc.
        rewrite Hs. now rewrite Contains_twice_skip by exact Hold.
      * rewrite headIs_append by assumption.
        rewrite Hs. now rewrite headIs_append by assumption.
    + simpl in Hlen. destruct (IH s ltac:(lia)) as [IHc IHh]. split; [| reflexivity].
      rewrite !Contains_cons, !HasPrefix_twice, IHc, IHh. reflexivity.
Qed.

(** Replacing a token by digits uses up token letters. *)
Lemma replace_from_count (p : ascii -> bool) :
  (1 <= count p old)%nat -> count p new = O ->
  forall (fuel : nat) (s : string),
    (String.length s <= fuel)%nat ->
    (count p (replace_from fuel s old new) <= count p s)%nat /\
    (Contains s old = true -> (count p (replace_from fuel s old new) < count p s)%nat).
Proof.
  intros Hold Hnew. induction fuel as [|fuel IH]; intros s Hlen.
  - destruct s; [| simpl in Hlen; lia]. split; [reflexivity |].
    simpl. destruct old; [congruence | discriminate].
  - destruct s as [|x s].
    { split; [reflexivity |]. simpl. destruct old; [congruence | discriminate]. }
    cbn [replace_from]. destruct (HasPrefix (String x s) old) eqn:Hp.
    + pose proof (HasPrefix_split _ _ Hp) as Hs.
      set (rest := drop (String.length old) (String x s)) in *.
      assert (Hrest : (String.length rest <= fuel)%nat).
      { apply (f_equal String.length) in Hs. rewrite length_append in Hs.
        destruct old; [congruence |]. simpl in Hs, Hlen. lia. }
      destruct (IH rest Hrest) as [IHle _].
      assert (Hc : count p (String x s) = (count p old + count p rest)%nat).
      { rewrite Hs at 1. apply count_append. }
      rewrite count_append, Hnew, Hc. split; [lia | intros _; lia].
    + simpl in Hlen. destruct (IH s ltac:(lia)) as [IHle IHlt].
      rewrite Contains_cons, Hp. simpl. split; [lia |].
      intros Hc. specialize (IHlt Hc). lia.
Qed.

End Replace.

End StringsFacts.

(** ** The report streamer: patterns *)

Module PatternFacts.
Import Strings StreamOutput StringsFacts.

Lemma ReplaceAll_nonempty (s old new : string) :
  old <> EmptyString -> ReplaceAll s old new = replace_from (String.length s) s old new.
Proof. destruct old; [congruence | reflexivity]. Qed.

Lemma mapping_shape (m : timeUnitMapping) :
  In m timeUnitMappings ->
  input m <> EmptyString /\ goFormat m <> EmptyString /\
  (1 <= count tokenLetter (input m))%nat /\ count tokenLetter (goFormat m) = O.
Proof.
  intros Hin. simpl in Hin.
  repeat (destruct Hin as [<- | Hin];
          [repeat split; try discriminate; vm_compute; lia |]).
  destruct Hin.
Qed.

(** One turn of the loop: the token letters never grow in number and
    shrink when the token is found; the unit is set exactly then; doubled
    bytes foreign to the token and to its layout are left as they are. *)
Lemma applyMapping_spec (m : timeUnitMapping) (formatted : string) (u : Z) :
  In m timeUnitMappings ->
  let formatted' := fst (applyMapping (formatted, u) m) in
  let u' := snd (applyMapping (formatted, u) m) in
  (count tokenLetter formatted' <= count tokenLetter formatted)%nat /\
  (Contains formatted (input m) = true ->
     (count tokenLetter formatted' < count tokenLetter formatted)%nat /\ u' = unit m) /\
  (Contains formatted (input m) = false -> formatted' = formatted /\ u' = u) /\
  (forall c, occurs c (input m) = false -> occurs c (goFormat m) = false ->
     Contains formatted' (twice c) = Contains formatted (twice c)).
Proof.
  intros Hin. destruct (mapping_shape m Hin) as (Hi & Hg & Hci & Hcg).
  unfold applyMapping. destruct (Contains formatted (input m)) eqn:Hc; cbn [fst snd].
  - rewrite ReplaceAll_nonempty by exact Hi.
    destruct (replace_from_count (input m) (goFormat m) Hi tokenLetter Hci Hcg
                (String.length formatted) formatted (le_n _)) as [Hle Hlt].
    repeat split; try discriminate; auto.
    intros c Ho Hn.
    apply (replace_from_twice (input m) (goFormat m) Hi Hg c Ho Hn
             (String.length formatted) formatted (le_n _)).
  - repeat split; try discriminate; auto.
Qed.

Lemma In_mappings (i : nat) (m : timeUnitMapping) :
  nth_error timeUnitMappings i = Some m -> In m timeUnitMappings.
Proof. apply nth_error_In. Qed.

(** Runs one turn of the loop and keeps what [applyMapping_spec] says of
    it. *)
Ltac turn i f u H :=
  lazymatch goal with
  | |- context [applyMapping (?f0, ?u0) ?m] =>
      pose proof (applyMapping_spec m f0 u0 (In_mappings i m eq_refl)) as H;
      destruct (applyMapping (f0, u0) m) as [f u];
      cbn [fst snd input goFormat unit] in H
  end.

(** The loop of [convertPatternToGoTimeFormat] on a pattern with a token:
    no error, and the unit of the smallest token of the pattern. *)
Lemma convertPattern_smallest (pattern : string) :
  hasToken pattern = true ->
  exists formatted,
    convertPatternToGoTimeFormat pattern = (formatted, smallestTokenUnit pattern, None).
Proof.
  intros Htok.
  unfold convertPatternToGoTimeFormat, timeUnitMappings. cbn [fold_left].
  turn 0%nat f1 u1 H1. turn 1%nat f2 u2 H2. turn 2%nat f3 u3 H3.
  turn 3%nat f4 u4 H4. turn 4%nat f5 u5 H5. turn 5%nat f6 u6 H6.
  turn 6%nat f7 u7 H7.
  (* what the later tokens see is what the pattern had *)
  assert (KM : Contains f2 "MM" = Contains pattern "MM").
  { etransitivity; [exact (proj2 (proj2 (proj2 H2)) "M"%char eq_refl eq_refl) |].
    exact (proj2 (proj2 (proj2 H1)) "M"%char eq_refl eq_refl). }
  assert (KD : Contains f3 "DD" = Contains pattern "DD").
  { etransitivity; [exact (proj2 (proj2 (proj2 H3)) "D"%char eq_refl eq_refl) |].
    etransitivity; [exact (proj2 (proj2 (proj2 H2)) "D"%char eq_refl eq_refl) |].
    exact (proj2 (proj2 (proj2 H1)) "D"%char eq_refl eq_refl). }
  assert (KH : Contains f4 "HH" = Contains pattern "HH").
  { etransitivity; [exact (proj2 (proj2 (proj2 H4)) "H"%char eq_refl eq_refl) |].
    etransitivity; [exact (proj2 (proj2 (proj2 H3)) "H"%char eq_refl eq_refl) |].
    etransitivity; [exact (proj2 (proj2 (proj2 H2)) "H"%char eq_refl eq_refl) |].
    exact (proj2 (proj2 (proj2 H1)) "H"%char eq_refl eq_refl). }
  assert (Km : Contains f5 "mm" = Contains pattern "mm").
  { etransitivity; [exact (proj2 (proj2 (proj2 H5)) "m"%char eq_refl eq_refl) |].
    etransitivity; [exact (proj2 (proj2 (proj2 H4)) "m"%char eq_refl eq_refl) |].
    etransitivity; [exact (proj2 (proj2 (proj2 H3)) "m"%char eq_refl eq_refl) |].
    etransitivity; [exact (proj2 (proj2 (proj2 H2)) "m"%char eq_refl eq_refl) |].
    exact (proj2 (proj2 (proj2 H1)) "m"%char eq_refl eq_refl). }
  assert (KS : Contains f6 "SS" = Contains pattern "SS").
  { etransitivity; [exact (proj2 (proj2 (proj2 H6)) "S"%char eq_refl eq_refl) |].
    etransitivity; [exact (proj2 (proj2 (proj2 H5)) "S"%char eq_refl eq_refl) |].
    etransitivity; [exact (proj2 (proj2 (proj2 H4)) "S"%char eq_refl eq_refl) |].
    etransitivity; [exact (proj2 (proj2 (proj2 H3)) "S"%char eq_refl eq_refl) |].
    etransitivity; [exact (proj2 (proj2 (proj2 H2)) "S"%char eq_refl eq_refl) |].
    exact (proj2 (proj2 (proj2 H1)) "S"%char eq_refl eq_refl). }
  destruct H1 as (L1 & T1 & F1 & _), H2 as (L2 & T2 & F2 & _), H3 as (L3 & T3 & F3 & _),
           H4 as (L4 & T4 & F4 & _), H5 as (L5 & T5 & F5 & _), H6 as (L6 & T6 & F6 & _),
           H7 as (L7 & T7 & F7 & _).
  rewrite KM in T3, F3. rewrite KD in T4, F4. rewrite KH in T5, F5.
  rewrite Km in T6, F6. rewrite KS in T7, F7.
  unfold hasToken, timeUnitMappings in Htok. cbn [existsb input] in Htok.
  unfold smallestTokenUnit.
  exists f7.
  destruct (String.eqb_spec f7 pattern) as [Heq | Hne].
  - (* the text did not change: no turn found its token *)
    exfalso.
    assert (Hcount : count tokenLetter f7 = count tokenLetter pattern) by now rewrite Heq.
    destruct (Contains pattern "YYYY") eqn:B1; [destruct (T1 eq_refl); lia |].
    destruct (F1 eq_refl) as [-> _].
    destruct (Contains pattern "YY") eqn:B2; [destruct (T2 eq_refl); lia |].
    destruct (Contains pattern "MM") eqn:B3; [destruct (T3 eq_refl); lia |].
    destruct (Contains pattern "DD") eqn:B4; [destruct (T4 eq_refl); lia |].
    destruct (Contains pattern "HH") eqn:B5; [destruct (T5 eq_refl); lia |].
    destruct (Contains pattern "mm") eqn:B6; [destruct (T6 eq_refl); lia |].
    destruct (Contains pattern "SS") eqn:B7; [destruct (T7 eq_refl); lia |].
    discriminate.
  - f_equal. f_equal.
    assert (U2 : u2 = YEAR).
    { destruct (Contains f1 "YY"); [apply (T2 eq_refl) |].
      destruct (F2 eq_refl) as [_ ->].
      destruct (Contains pattern "YYYY"); [apply (T1 eq_refl) | apply (F1 eq_refl)]. }
    destruct (Contains pattern "SS"); [apply (T7 eq_refl) |].
    destruct (F7 eq_refl) as [_ ->].
    destruct (Contains pattern "mm"); [apply (T6 eq_refl) |].
    destruct (F6 eq_refl) as [_ ->].
    destruct (Contains pattern "HH"); [apply (T5 eq_refl) |].
    destruct (F5 eq_refl) as [_ ->].
    destruct (Contains pattern "DD"); [apply (T4 eq_refl) |].
    destruct (F4 eq_refl) as [_ ->].
    destruct (Contains pattern "MM"); [apply (T3 eq_refl) |].
    destruct (F3 eq_refl) as [_ ->]. exact U2.
Qed.

End PatternFacts.

(** ** The calendar *)

Module CalendarFacts.
Import GoTime.

Lemma daysBeforeYear_succ (year : Z) :
  daysBeforeYear (year + 1) = daysBeforeYear year + (if isLeap year then 366 else 365).
Proof.
  unfold daysBeforeYear, isLeap.
  replace (year + 1 - 1) with year by lia.
  destruct (Z.eqb_spec (year mod 4) 0), (Z.eqb_spec (year mod 100) 0),
    (Z.eqb_spec (year mod 400) 0); cbn [andb orb negb];
    Z.div_mod_to_equations; lia.
Qed.

Lemma daysBeforeYear_mono (y y' : Z) : y <= y' -> daysBeforeYear y <= daysBeforeYear y'.
Proof. unfold daysBeforeYear. intros H. Z.div_mod_to_equations. lia. Qed.

(** The estimate of [yearOfDay] is off by at most one year, which the two
    tests put right. *)
Lemma yearOfDay_spec (n : Z) :
  daysBeforeYear (yearOfDay n) <= n < daysBeforeYear (yearOfDay n + 1).
Proof.
  unfold yearOfDay.
  set (y := 400 * n / 146097 + 1).
  assert (Hy : 146097 * (y - 1) <= 400 * n < 146097 * y).
  { unfold y. Z.div_mod_to_equations. lia. }
  clearbody y.
  destruct (Z.leb_spec (daysBeforeYear (y + 1)) n) as [H1 | H1].
  - split; [exact H1 |]. unfold daysBeforeYear in *. Z.div_mod_to_equations. lia.
  - destruct (Z.ltb_spec n (daysBeforeYear y)) as [H2 | H2].
    + replace (y - 1 + 1) with y by lia. split; [| exact H2].
      unfold daysBeforeYear in *. Z.div_mod_to_equations. lia.
    + split; assumption.
Qed.

Lemma year_unique (n y y' : Z) :
  daysBeforeYear y <= n < daysBeforeYear (y + 1) ->
  daysBeforeYear y' <= n < daysBeforeYear (y' + 1) ->
  y = y'.
Proof.
  intros H H'.
  destruct (Z.lt_trichotomy y y') as [Hlt | [Heq | Hgt]]; [| exact Heq |].
  - pose proof (daysBeforeYear_mono (y + 1) y' ltac:(lia)). lia.
  - pose proof (daysBeforeYear_mono (y' + 1) y ltac:(lia)). lia.
Qed.

Ltac months m :=
  let H := fresh in
  assert (H : m = 1 \/ m = 2 \/ m = 3 \/ m = 4 \/ m = 5 \/ m = 6 \/ m = 7 \/ m = 8 \/
              m = 9 \/ m = 10 \/ m = 11 \/ m = 12) by lia;
  decompose [or] H; clear H; subst m.

Lemma daysBefore_bounds (leap : bool) (m : Z) :
  1 <= m <= 12 ->
  0 <= daysBefore leap m /\ daysBefore leap m + 28 <= daysBefore leap (m + 1) /\
  daysBefore leap (m + 1) <= daysBefore leap 13.
Proof. intros Hm. months m; destruct leap; unfold daysBefore; simpl; lia. Qed.

Lemma daysBefore_first (leap : bool) : daysBefore leap 1 = 0.
Proof. now destruct leap. Qed.

Lemma yearLength (year : Z) :
  daysBeforeYear (year + 1) = daysBeforeYear year + daysBefore (isLeap year) 13.
Proof. rewrite daysBeforeYear_succ. now destruct (isLeap year). Qed.

Lemma monthOfYearDay_spec (leap : bool) (yday : Z) :
  0 <= yday < daysBefore leap 13 ->
  1 <= monthOfYearDay leap yday <= 12 /\
  daysBefore leap (monthOfYearDay leap yday) <= yday
  < daysBefore leap (monthOfYearDay leap yday + 1).
Proof.
  intros H. unfold monthOfYearDay.
  destruct leap; unfold daysBefore in H; simpl in H;
    repeat (match goal with
            | |- context [?a <? ?b] => destruct (Z.ltb_spec a b)
            end; unfold daysBefore in *; simpl in *; try lia).
Qed.

Lemma month_unique (leap : bool) (yday m : Z) :
  1 <= m <= 12 ->
  daysBefore leap m <= yday < daysBefore leap (m + 1) ->
  monthOfYearDay leap yday = m.
Proof.
  intros Hm. unfold monthOfYearDay.
  months m; destruct leap; unfold daysBefore; simpl; intros H;
    repeat (match goal with
            | |- context [?a <? ?b] => destruct (Z.ltb_spec a b)
            end; try lia; try reflexivity).
Qed.

(** Where a day falls: in the month it is a day of, and nowhere else. *)
Lemma civil_spec (n : Z) :
  let '(year, month, day) := civil n in
  let first := daysBeforeYear year + daysBefore (isLeap year) month in
  1 <= month <= 12 /\
  first <= n < daysBeforeYear year + daysBefore (isLeap year) (month + 1) /\
  day = n - first + 1.
Proof.
  unfold civil. pose proof (yearOfDay_spec n) as Hy.
  set (year := yearOfDay n) in *. rewrite yearLength in Hy.
  destruct (monthOfYearDay_spec (isLeap year) (n - daysBeforeYear year) ltac:(lia))
    as [Hm Hd].
  repeat split; lia.
Qed.

Lemma civil_unique (year month k : Z) :
  1 <= month <= 12 ->
  daysBeforeYear year + daysBefore (isLeap year) month <= k
  < daysBeforeYear year + daysBefore (isLeap year) (month + 1) ->
  civil k = (year, month, k - (daysBeforeYear year + daysBefore (isLeap year) month) + 1).
Proof.
  intros Hm Hk.
  destruct (daysBefore_bounds (isLeap year) month Hm) as (H0 & _ & H13).
  assert (Hy : yearOfDay k = year).
  { apply (year_unique k); [apply yearOfDay_spec |]. rewrite yearLength. lia. }
  unfold civil. rewrite Hy.
  rewrite (month_unique (isLeap year) (k - daysBeforeYear year) month Hm) by lia.
  f_equal. lia.
Qed.

Lemma dayNumber_in_year (year month day : Z) :
  1 <= month <= 12 ->
  dayNumber year month day
  = daysBeforeYear year + daysBefore (isLeap year) month + (day - 1).
Proof.
  intros Hm. unfold dayNumber.
  replace ((month - 1) / 12) with 0 by (Z.div_mod_to_equations; lia).
  replace ((month - 1) mod 12 + 1) with month by (Z.div_mod_to_equations; lia).
  now rewrite Z.add_0_r.
Qed.

(** Date and day number are inverse to each other. *)
Lemma dayNumber_civil (n : Z) :
  let '(year, month, day) := civil n in dayNumber year month day = n.
Proof.
  pose proof (civil_spec n) as H. destruct (civil n) as [[year month] day].
  destruct H as (Hm & Hn & Hd). rewrite dayNumber_in_year by exact Hm. lia.
Qed.

Lemma civil_first_of_month (year month : Z) :
  1 <= month <= 12 -> civil (dayNumber year month 1) = (year, month, 1).
Proof.
  intros Hm. rewrite dayNumber_in_year by exact Hm.
  destruct (daysBefore_bounds (isLeap year) month Hm) as (H0 & H28 & _).
  rewrite (civil_unique year month) by lia. f_equal. lia.
Qed.

End CalendarFacts.

(** ** The report streamer: the next rollover *)

Module RolloverFacts.
Import GoTime StreamOutput CalendarFacts.

(** Rounding down to a multiple of [d] and adding [d] gives the first
    multiple of [d] after the instant. *)
Lemma truncate_add_first (now : Time) (d : Z) :
  0 < d ->
  let next := Add (Truncate now d) d in
  loc next = loc now /\
  abs now < abs next /\
  abs next mod d = 0 /\
  forall t, abs now < abs t < abs next -> abs t mod d <> 0.
Proof.
  intros Hd. unfold Truncate, Add.
  destruct (Z.leb_spec d 0) as [Hle | _]; [lia |]. cbn [abs loc].
  pose proof (Z.mod_pos_bound (abs now) d Hd) as Hr.
  pose proof (Z.div_mod (abs now) d ltac:(lia)) as Hq.
  repeat split.
  - lia.
  - replace (abs now - abs now mod d + d) with ((abs now / d + 1) * d) by lia.
    apply Z.mod_mul. lia.
  - intros t Ht Hz.
    pose proof (Z.div_mod (abs t) d ltac:(lia)) as Hqt. rewrite Hz in Hqt.
    assert (abs now / d < abs t / d < abs now / d + 1) by nia. lia.
Qed.

Lemma wall_day (t : Time) :
  wall t / Day * Day <= wall t < (wall t / Day + 1) * Day.
Proof.
  assert (HD : 0 < Day) by reflexivity.
  pose proof (Z.mod_pos_bound (wall t) Day HD).
  pose proof (Z.div_mod (wall t) Day ltac:(lia)). lia.
Qed.

Lemma wall_Date (year month day : Z) (location : Z) :
  wall (Date year month day 0 0 0 0 location) = dayNumber year month day * Day.
Proof. unfold wall, Date. cbn [abs loc]. lia. Qed.

Lemma wall_Add (t : Time) (d : Z) : wall (Add t d) = wall t + d.
Proof. unfold wall, Add. cbn [abs loc]. lia. Qed.

(** An instant at midnight on the wall clock, strictly between an instant
    of day [n] and midnight of day [N], is midnight of a day strictly
    between [n] and [N]. *)
Lemma midnight_between (now t : Time) (N : Z) :
  loc t = loc now -> abs now < abs t -> wall t < N * Day -> wall t mod Day = 0 ->
  wall now / Day < wall t / Day < N /\ wall t = wall t / Day * Day.
Proof.
  intros Hloc Hlt HN Hz.
  assert (HD : 0 < Day) by reflexivity.
  pose proof (wall_day now) as Hn.
  pose proof (Z.div_mod (wall t) Day ltac:(lia)) as Hq. rewrite Hz in Hq.
  assert (wall now < wall t) by (unfold wall; rewrite Hloc; lia).
  split; [| lia]. split; nia.
Qed.

Lemma rollover_by_truncation (u d : Z) (now : Time) :
  (u = SECOND /\ d = Second) \/ (u = MINUTE /\ d = Minute) \/ (u = HOUR /\ d = Hour) ->
  calculateNextRollover u now = (Add (Truncate now d) d, None) /\
  nextBoundary u now (Add (Truncate now d) d).
Proof.
  intros Hu.
  assert (Hd : 0 < d) by (decompose [and or] Hu; subst; reflexivity).
  destruct (truncate_add_first now d Hd) as (Hloc & Hlt & Hz & Hfirst).
  unfold nextBoundary.
  decompose [and or] Hu; subst u d;
    (split; [reflexivity |]);
    (split; [exact Hloc |]); (split; [exact Hlt |]);
    (split; [exact Hz | intros t _ Ht; exact (Hfirst t Ht)]).
Qed.

Lemma rollover_day (now : Time) :
  exists next,
    calculateNextRollover DAY now = (next, None) /\ nextBoundary DAY now next.
Proof.
  unfold calculateNextRollover, Time_Date. cbn [Z.eqb SECOND MINUTE HOUR DAY].
  pose proof (civil_spec (wall now / Day)) as Hspec.
  pose proof (dayNumber_civil (wall now / Day)) as Hnum.
  destruct (civil (wall now / Day)) as [[year month] day].
  eexists. split; [reflexivity |].
  assert (HD : 0 < Day) by reflexivity.
  pose proof (wall_day now) as Hn.
  set (next := Add (Date year month day 0 0 0 0 (loc now)) (24 * Hour)).
  assert (Hw : wall next = (wall now / Day + 1) * Day).
  { unfold next. rewrite wall_Add, wall_Date, Hnum.
    change Day with (24 * Hour). lia. }
  unfold nextBoundary. split; [reflexivity |].
  assert (Habs : forall t, loc t = loc now -> abs t = wall t - loc now * Second).
  { intros t Ht. unfold wall. rewrite Ht. lia. }
  split; [rewrite (Habs next eq_refl), (Habs now eq_refl); lia |].
  split.
  - unfold onBoundary. cbn [Z.eqb SECOND MINUTE HOUR DAY]. rewrite Hw. apply Z.mod_mul. lia.
  - intros t Hloc Ht. unfold onBoundary. cbn [Z.eqb SECOND MINUTE HOUR DAY]. intros Hz.
    rewrite (Habs next eq_refl), (Habs now eq_refl), (Habs t Hloc) in Ht.
    destruct (midnight_between now t (wall now / Day + 1) Hloc) as [Hk _];
      [rewrite (Habs now eq_refl), (Habs t Hloc); lia | lia | exact Hz | lia].
Qed.

(** The month after: its first day is the day after the last of this
    month. *)
Lemma next_month_first (year month : Z) :
  1 <= month <= 12 ->
  let '(year', month') := if month =? 12 then (year + 1, 1) else (year, month + 1) in
  1 <= month' <= 12 /\
  dayNumber year' month' 1 = daysBeforeYear year + daysBefore (isLeap year) (month + 1).
Proof.
  intros Hm. destruct (Z.eqb_spec month 12) as [-> | Hne].
  - split; [lia |]. rewrite dayNumber_in_year by lia. rewrite yearLength.
    change (12 + 1) with 13. rewrite daysBefore_first. lia.
  - split; [lia |]. rewrite dayNumber_in_year by lia. lia.
Qed.

Lemma rollover_month (now : Time) :
  exists next,
    calculateNextRollover MONTH now = (next, None) /\ nextBoundary MONTH now next.
Proof.
  unfold calculateNextRollover, Time_Date. cbn [Z.eqb SECOND MINUTE HOUR DAY MONTH].
  pose proof (civil_spec (wall now / Day)) as Hspec.
  destruct (civil (wall now / Day)) as [[year month] day].
  destruct Hspec as (Hm & Hn & _).
  pose proof (next_month_first year month Hm) as Hnext.
  destruct (if month =? 12 then (year + 1, 1) else (year, month + 1)) as [year' month'].
  destruct Hnext as [Hm' HN].
  eexists. split; [reflexivity |].
  assert (HD : 0 < Day) by reflexivity.
  pose proof (wall_day now) as Hday.
  set (next := Date year' month' 1 0 0 0 0 (loc now)).
  assert (Hw : wall next = dayNumber year' month' 1 * Day) by apply wall_Date.
  assert (Habs : forall t, loc t = loc now -> abs t = wall t - loc now * Second).
  { intros t Ht. unfold wall. rewrite Ht. lia. }
  unfold nextBoundary. split; [reflexivity |].
  split; [rewrite (Habs next eq_refl), (Habs now eq_refl); nia |].
  split.
  - unfold onBoundary, Time_Date. cbn [Z.eqb SECOND MINUTE HOUR DAY MONTH].
    rewrite Hw. split; [apply Z.mod_mul; lia |].
    rewrite Z.div_mul by lia. now rewrite civil_first_of_month.
  - intros t Hloc Ht. unfold onBoundary, Time_Date.
    cbn [Z.eqb SECOND MINUTE HOUR DAY MONTH]. intros [Hz Hfirst].
    rewrite (Habs next eq_refl), (Habs now eq_refl), (Habs t Hloc) in Ht.
    destruct (midnight_between now t (dayNumber year' month' 1) Hloc) as [Hk _];
      [rewrite (Habs now eq_refl), (Habs t Hloc); lia | lia | exact Hz |].
    rewrite (civil_unique year month (wall t / Day) Hm) in Hfirst by lia.
    cbn [snd] in Hfirst. lia.
Qed.

Lemma rollover_year (now : Time) :
  exists next,
    calculateNextRollover YEAR now = (next, None) /\ nextBoundary YEAR now next.
Proof.
  unfold calculateNextRollover, Time_Date. cbn [Z.eqb SECOND MINUTE HOUR DAY MONTH YEAR].
  pose proof (civil_spec (wall now / Day)) as Hspec.
  destruct (civil (wall now / Day)) as [[year month] day].
  destruct Hspec as (Hm & Hn & _).
  destruct (daysBefore_bounds (isLeap year) month Hm) as (H0 & _ & H13).
  pose proof (yearLength year) as Hlen.
  eexists. split; [reflexivity |].
  assert (HD : 0 < Day) by reflexivity.
  pose proof (wall_day now) as Hday.
  set (next := Date (year + 1) 1 1 0 0 0 0 (loc now)).
  assert (HN : dayNumber (year + 1) 1 1 = daysBeforeYear (year + 1)).
  { rewrite dayNumber_in_year by lia. rewrite daysBefore_first. lia. }
  assert (Hw : wall next = daysBeforeYear (year + 1) * Day).
  { unfold next. now rewrite wall_Date, HN. }
  assert (Habs : forall t, loc t = loc now -> abs t = wall t - loc now * Second).
  { intros t Ht. unfold wall. rewrite Ht. lia. }
  unfold nextBoundary. split; [reflexivity |].
  split; [rewrite (Habs next eq_refl), (Habs now eq_refl); nia |].
  split.
  - unfold onBoundary, Time_Date. cbn [Z.eqb SECOND MINUTE HOUR DAY MONTH YEAR].
    rewrite Hw. split; [apply Z.mod_mul; lia |].
    rewrite Z.div_mul by lia. rewrite <- HN.
    now rewrite civil_first_of_month by lia.
  - intros t Hloc Ht. unfold onBoundary, Time_Date.
    cbn [Z.eqb SECOND MINUTE HOUR DAY MONTH YEAR]. intros (Hz & Hjan & Hfirst).
    rewrite (Habs next eq_refl), (Habs now eq_refl), (Habs t Hloc) in Ht.
    destruct (midnight_between now t (daysBeforeYear (year + 1)) Hloc) as [Hk _];
      [rewrite (Habs now eq_refl), (Habs t Hloc); lia | lia | exact Hz |].
    pose proof (civil_spec (wall t / Day)) as Hspec.
    destruct (civil (wall t / Day)) as [[yt mt] dt]. cbn [fst snd] in Hjan, Hfirst.
    subst mt dt. destruct Hspec as (_ & Hkt & Hone).
    rewrite daysBefore_first in Hkt, Hone.
    destruct (Z.le_gt_cases yt year) as [Hle | Hgt].
    + pose proof (daysBeforeYear_mono yt year Hle). lia.
    + pose proof (daysBeforeYear_mono (year + 1) yt ltac:(lia)). lia.
Qed.

(** For each of the six units the rollover is the first tick of the
    cadence after the present instant. *)
Lemma calculateNextRollover_first (u : Z) (now : Time) :
  SECOND <= u <= YEAR ->
  exists next,
    calculateNextRollover u now = (next, None) /\ nextBoundary u now next.
Proof.
  unfold SECOND, YEAR. intros Hu.
  assert (H : u = SECOND \/ u = MINUTE \/ u = HOUR \/ u = DAY \/ u = MONTH \/ u = YEAR)
    by (unfold SECOND, MINUTE, HOUR, DAY, MONTH, YEAR; lia).
  destruct H as [-> | [-> | [-> | [-> | [-> | ->]]]]].
  - eexists. apply (rollover_by_truncation SECOND Second). auto.
  - eexists. apply (rollover_by_truncation MINUTE Minute). auto.
  - eexists. apply (rollover_by_truncation HOUR Hour). auto.
  - apply rollover_day.
  - apply rollover_month.
  - apply rollover_year.
Qed.

End RolloverFacts.

(** ** The report streamer: cadence *)

Module CadenceFacts.
Import Strings GoTime StreamOutput PatternFacts RolloverFacts.




(** The six cadences at an instant of 12 October 2026, 13:45:10.5 on a
    clock one hour east of UTC: the wall clock reading of the rollover, as
    date and second of the day. *)
Example rollovers_of_an_afternoon :
  let now := Add (Date 2026 10 12 13 45 10 0 3600) (500 * 1000000) in
  map (fun u =>
         let next := fst (calculateNextRollover u now) in
         (Time_Date next, wall next mod Day / Second))
      [SECOND; MINUTE; HOUR; DAY; MONTH; YEAR]
  = [ (2026, 10, 12, 13 * 3600 + 45 * 60 + 11);
      (2026, 10, 12, 13 * 3600 + 46 * 60);
      (2026, 10, 12, 14 * 3600);
      (2026, 10, 13, 0);
      (2026, 11, 1, 0);
      (2027, 1, 1, 0) ].
Proof. vm_compute. reflexivity. Qed.

(** In a location whose offset is a whole number of hours the ticks of
    seconds, minutes and hours are those of the wall clock. *)
Lemma wall_ticks_with_whole_hour_offset (t : Time) (d : Z) :
  d = Second \/ d = Minute \/ d = Hour ->
  loc t mod 3600 = 0 ->
  (abs t mod d = 0 <-> wall t mod d = 0).
Proof.
  intros Hd Hloc. unfold wall.
  apply Z.mod_divide in Hloc; [| lia]. destruct Hloc as [k Hk]. rewrite Hk.
  assert (Hmul : exists c, k * 3600 * Second = c * d).
  { destruct Hd as [-> | [-> | ->]]; unfold Hour, Minute;
      [exists (k * 3600) | exists (k * 60) | exists k]; lia. }
  destruct Hmul as [c ->].
  assert (d <> 0) by (destruct Hd as [-> | [-> | ->]]; discriminate).
  now rewrite Z.mod_add.
Qed.

End CadenceFacts.

(** ** The report streamer: the file *)

Module FileFacts.
Import Strings Os StringsFacts.

Lemma content_insert (fs : FS) (name data : string) :
  content (set_files fs (<[name := data]> (files fs))) name = data.
Proof. unfold content, set_files. cbn [files]. now rewrite lookup_insert_eq. Qed.

(** On a disk that takes writes, [WriteString] appends. *)
Lemma WriteString_appends (fs : FS) (name data : string) :
  writeError fs = None ->
  content (fst (WriteString fs name data)) name = content fs name +:+ data /\
  writeError (fst (WriteString fs name data)) = None.
Proof.
  intros Hw. unfold WriteString. rewrite Hw. cbn [fst].
  split; [apply content_insert | exact Hw].
Qed.

(** On a disk that refuses writes, [WriteString] changes nothing and says
    so. *)
Lemma WriteString_fails (fs : FS) (name data e : string) :
  writeError fs = Some e -> WriteString fs name data = (fs, Some e).
Proof. intros Hw. unfold WriteString. now rewrite Hw. Qed.

Lemma take_append (s t : string) : take (String.length s) (s +:+ t) = s.
Proof.
  induction s as [|c s IH]; [now destruct t |].
  rewrite append_cons. simpl. now rewrite IH.
Qed.

(** Cutting the last byte off a file that exists. *)
Lemma Truncate_last (fs : FS) (name body : string) (c : ascii) :
  files fs !! name = Some (body +:+ String c EmptyString) ->
  content (Os.Truncate fs name (Size fs name - 1)) name = body /\
  writeError (Os.Truncate fs name (Size fs name - 1)) = writeError fs.
Proof.
  intros Hf.
  assert (Hsize : Size fs name - 1 = Z.of_nat (String.length body)).
  { unfold Size, content. rewrite Hf. cbn [default from_option id].
    rewrite length_append. cbn [String.length]. lia. }
  unfold Os.Truncate. rewrite Hf, Hsize.
  destruct (Z.ltb_spec (Z.of_nat (String.length body)) 0) as [Hneg | _]; [lia |].
  rewrite Nat2Z.id, length_append.
  replace (String.length body - (String.length body + String.length (String c "")))%nat
    with O by lia.
  cbn [zeros]. rewrite content_insert. split; [| reflexivity].
  now rewrite append_empty_r, take_append.
Qed.

Lemma file_of_content (fs : FS) (name : string) (c : ascii) (rest : string) :
  content fs name = String c rest -> files fs !! name = Some (String c rest).
Proof.
  unfold content. destruct (files fs !! name) as [s|]; simpl;
    [now intros -> | discriminate].
Qed.

End FileFacts.

(** ** The report streamer: appending and opening *)

Module StreamerFacts.
Import Strings GoTime Os StreamOutput StringsFacts FileFacts.

Lemma Join_cons (e e' : string) (rest : list string) (sep : string) :
  Join (e :: e' :: rest) sep = e +:+ sep +:+ Join (e' :: rest) sep.
Proof. reflexivity. Qed.

Lemma Join_app (a b : list string) (sep : string) :
  a <> [] -> b <> [] -> Join (a ++ b) sep = Join a sep +:+ sep +:+ Join b sep.
Proof.
  intros Ha Hb. induction a as [|e a IH]; [contradiction |].
  destruct a as [|e' a].
  - destruct b as [|e' b]; [contradiction | reflexivity].
  - change ((e :: e' :: a) ++ b) with (e :: e' :: (a ++ b)).
    rewrite !Join_cons. change (e' :: a ++ b) with ((e' :: a) ++ b).
    rewrite IH by discriminate. now rewrite !append_assoc.
Qed.

Section Facts.

Variable Format : Time -> string -> string.
Variable Marshal : ValidationError -> string.

Lemma writeViolation_turn (f : string) (len i : nat) (fs : FS) (v : ValidationError) :
  writeViolation Marshal f len fs (i, v)
  = if Z.of_nat i <? Z.of_nat len - 1
    then fst (WriteString (fst (WriteString fs f (Marshal v))) f commaNewline)
    else fst (WriteString fs f (Marshal v)).
Proof. reflexivity. Qed.

(** The loop over a batch writes its violations with the separator between
    them. *)
Lemma writeViolation_loop (f : string) (len : nat) (vs : list ValidationError) :
  forall (i : nat) (fs : FS),
    len = (i + length vs)%nat -> writeError fs = None ->
    let fs' := fold_left (writeViolation Marshal f len) (combine (seq i (length vs)) vs) fs in
    content fs' f = content fs f +:+ Join (map Marshal vs) commaNewline /\
    writeError fs' = None.
Proof.
  induction vs as [|v vs IH]; intros i fs Hn Hw; cbv zeta in *.
  - cbn. now rewrite append_empty_r.
  - cbn [length seq combine fold_left].
    destruct (WriteString_appends fs f (Marshal v) Hw) as [Hc1 Hw1].
    rewrite !writeViolation_turn.
    set (fs1 := fst (WriteString fs f (Marshal v))) in *.
    destruct vs as [|v' vs].
    + cbn [length seq combine fold_left map Join].
      destruct (Z.ltb_spec (Z.of_nat i) (Z.of_nat len - 1)) as [Hlt | _];
        [cbn [length] in Hn; lia |].
      split; assumption.
    + destruct (Z.ltb_spec (Z.of_nat i) (Z.of_nat len - 1)) as [_ | Hge];
        [| cbn [length] in Hn; lia].
      destruct (WriteString_appends fs1 f commaNewline Hw1) as [Hc2 Hw2].
      set (fs2 := fst (WriteString fs1 f commaNewline)) in *.
      destruct (IH (S i) fs2 ltac:(cbn [length] in *; lia) Hw2) as [Hc Hw'].
      split; [| exact Hw'].
      rewrite Hc, Hc2, Hc1. cbn [map]. rewrite Join_cons.
      now rewrite !append_assoc.
Qed.

Lemma writeViolations_appends (fs : FS) (f : string) (violations : list ValidationError) :
  writeError fs = None ->
  content (writeViolations Marshal fs f violations) f
  = content fs f +:+ Join (map Marshal violations) commaNewline /\
  writeError (writeViolations Marshal fs f violations) = None.
Proof.
  intros Hw. unfold writeViolations.
  apply (writeViolation_loop f (length violations) violations 0%nat fs); [lia | exact Hw].
Qed.

(** A violation is laid out as a JSON object or as [null]: two bytes at
    least. *)
Hypothesis Marshal_length : forall v, (2 <= String.length (Marshal v))%nat.

Lemma Join_Marshal_length (violations : list ValidationError) :
  violations <> [] ->
  (2 <= String.length (Join (map Marshal violations) commaNewline))%nat.
Proof.
  destruct violations as [|v [|v' rest]]; [contradiction | |]; intros _.
  - apply Marshal_length.
  - cbn [map]. rewrite Join_cons, length_append. pose proof (Marshal_length v). lia.
Qed.

Lemma render_shape (violations : list ValidationError) :
  render Marshal violations
  = String "[" (Join (map Marshal violations) commaNewline) +:+ "]".
Proof. reflexivity. Qed.

Lemma render_app (vs batch : list ValidationError) :
  vs <> [] -> batch <> [] ->
  render Marshal (vs ++ batch)
  = String "[" (Join (map Marshal vs) commaNewline) +:+ commaNewline
    +:+ Join (map Marshal batch) commaNewline +:+ "]".
Proof.
  intros Hvs Hb. rewrite render_shape, map_app.
  rewrite Join_app by (destruct vs, batch; try discriminate; contradiction).
  now rewrite !append_cons, !append_assoc.
Qed.

(** One append, on a file that holds the array of [vs]: the code does
    what the specification words, and the file holds the array of [vs]
    followed by the batch. *)
Lemma appendBatch_spec (fs : FS) (f : string) (vs batch : list ValidationError) :
  writeError fs = None ->
  content fs f = render Marshal vs ->
  batch <> [] ->
  content (appendBatch Marshal fs f batch) f = render Marshal (vs ++ batch) /\
  content (appendBatch Marshal fs f batch) f
  = appendAsSpecified Marshal (content fs f) batch /\
  writeError (appendBatch Marshal fs f batch) = None.
Proof.
  intros Hw Hc Hb.
  set (J := Join (map Marshal vs) commaNewline).
  assert (Hshape : content fs f = String "[" J +:+ "]") by (rewrite Hc; apply render_shape).
  assert (Hfile : files fs !! f = Some (String "[" J +:+ "]")).
  { rewrite append_cons in Hshape |- *. now apply file_of_content. }
  destruct (Truncate_last fs f (String "[" J) "]" Hfile) as [Hcut Hwcut].
  rewrite Hw in Hwcut.
  assert (Hsize : Size fs f = Z.of_nat (String.length J) + 2).
  { unfold Size. rewrite Hshape, length_append. cbn [String.length]. lia. }
  (* the specification's wording, on this content *)
  assert (Hspec : appendAsSpecified Marshal (content fs f) batch
                  = String "[" J
                    +:+ (if (2 <? String.length (String "[" J))%nat
                         then commaNewline else EmptyString)
                    +:+ Join (map Marshal batch) commaNewline +:+ "]").
  { unfold appendAsSpecified. rewrite Hshape, length_append.
    replace (String.length (String "[" J) + String.length "]" - 1)%nat
      with (String.length (String "[" J)) by (cbn [String.length]; lia).
    now rewrite take_append. }
  unfold appendBatch. rewrite Hspec. clear Hspec.
  set (fs1 := Os.Truncate fs f (Size fs f - 1)) in *.
  rewrite Hsize.
  destruct vs as [|v0 vs'].
  - (* the file was [[]] *)
    change J with EmptyString in *. cbn [String.length app].
    destruct (Z.ltb_spec 2 (Z.of_nat 0 + 2)) as [Hno | _]; [lia |].
    destruct (Nat.ltb_spec 2 1) as [Hno | _]; [lia |].
    destruct (writeViolations_appends fs1 f batch Hwcut) as [Hc2 Hw2].
    destruct (WriteString_appends _ f "]" Hw2) as [Hc3 Hw3].
    rewrite Hc3, Hc2, Hcut. split; [| split; [| exact Hw3]].
    + rewrite render_shape. now rewrite !append_cons, !append_assoc.
    + now rewrite append_empty_l, !append_assoc.
  - (* the file held violations already *)
    pose proof (Join_Marshal_length (v0 :: vs') ltac:(discriminate)) as HJ. fold J in HJ.
    destruct (Z.ltb_spec 2 (Z.of_nat (String.length J) + 2)) as [_ | Hno]; [| lia].
    destruct (Nat.ltb_spec 2 (String.length (String "[" J))) as [_ | Hno];
      [| cbn [String.length] in Hno; lia].
    destruct (WriteString_appends fs1 f commaNewline Hwcut) as [Hc1 Hw1].
    destruct (writeViolations_appends _ f batch Hw1) as [Hc2 Hw2].
    destruct (WriteString_appends _ f "]" Hw2) as [Hc3 Hw3].
    rewrite Hc3, Hc2, Hc1, Hcut. split; [| split; [| exact Hw3]].
    + rewrite render_app by (assumption || discriminate). fold J.
      now rewrite !append_assoc.
    + now rewrite !append_assoc.
Qed.

(** Opening a name whose file is absent or empty leaves an empty file
    behind, whatever the disk. *)
Lemma OpenFile_empty (fs : FS) (filename : string) :
  openError fs filename = None ->
  content fs filename = EmptyString ->
  exists fs',
    OpenFile fs filename = (fs', (filename, None)) /\
    content fs' filename = EmptyString /\
    Size fs' filename = 0 /\
    writeError fs' = writeError fs.
Proof.
  intros Ho Hc. unfold OpenFile. rewrite Ho.
  destruct (files fs !! filename) as [c|] eqn:Hf.
  - exists fs. repeat split; [exact Hc |]. unfold Size. now rewrite Hc.
  - eexists. split; [reflexivity |].
    assert (Hc' : content (set_files fs (<[filename := EmptyString]> (files fs))) filename
                  = EmptyString) by apply content_insert.
    repeat split; [exact Hc' |]. unfold Size. now rewrite Hc'.
Qed.

(** On a disk that takes writes, the report file that is opened empty
    starts as the two bytes of the empty array. *)
Lemma openReportFile_fresh (report : string) (now : Time) (fs fs1 : FS)
    (filename : string) (rolloverChan : option Time) :
  nameReportFile Format report now fs = inl (fs1, filename, rolloverChan) ->
  openError fs1 filename = None ->
  content fs1 filename = EmptyString ->
  writeError fs1 = None ->
  exists fs',
    openReportFile Format report now fs = (fs', (Some filename, rolloverChan, None)) /\
    content fs' filename = "[]" /\
    writeError fs' = None.
Proof.
  intros Hname Ho Hc Hw. unfold openReportFile. rewrite Hname.
  destruct (OpenFile_empty fs1 filename Ho Hc) as (fs2 & Hopen & Hc2 & Hsize & Hw2).
  rewrite Hopen, Hsize. cbn [Z.eqb].
  rewrite Hw in Hw2.
  destruct (WriteString_appends fs2 filename "[]" Hw2) as [Hc3 Hw3].
  destruct (WriteString fs2 filename "[]") as [fs3 e]. cbn [fst] in Hc3, Hw3.
  exists fs3. repeat split; [| exact Hw3]. now rewrite Hc3, Hc2.
Qed.

Lemma run_cons (ws : Streamer) (ev : Event) (events : list Event) :
  run Format Marshal ws (ev :: events)
  = run Format Marshal (step Format Marshal ws ev) events.
Proof. reflexivity. Qed.

Lemma step_appends (ws : Streamer) (batch : list ValidationError) :
  between_appends Marshal ws -> batch <> [] ->
  let ws' := step Format Marshal ws (Violations batch) in
  between_appends Marshal ws' /\
  f ws' = f ws /\
  streamViolations ws' = streamViolations ws ++ batch /\
  content (disk ws') (f ws')
  = appendAsSpecified Marshal (content (disk ws) (f ws)) batch.
Proof.
  intros (Hl & Hs & Hw & Hc) Hb. unfold step. rewrite Hl, Hs. cbn [negb].
  destruct (appendBatch_spec (disk ws) (f ws) (streamViolations ws) batch Hw Hc Hb)
    as (Hr & Hspec & Hw').
  unfold between_appends. cbn [listening stream disk f streamViolations].
  repeat split; assumption.
Qed.

Lemma run_appends (ws : Streamer) (batches : list (list ValidationError)) :
  between_appends Marshal ws ->
  Forall (fun batch => batch <> []) batches ->
  let ws' := run Format Marshal ws (map Violations batches) in
  between_appends Marshal ws' /\
  f ws' = f ws /\
  streamViolations ws' = streamViolations ws ++ concat batches.
Proof.
  revert ws. induction batches as [|batch batches IH]; intros ws Hinv Hall.
  - cbn. now rewrite app_nil_r.
  - inversion Hall as [|? ? Hb Hrest]; subst.
    destruct (step_appends ws batch Hinv Hb) as (Hinv1 & Hf1 & Hv1 & _).
    destruct (IH _ Hinv1 Hrest) as (Hinv' & Hf' & Hv').
    cbn [map]. rewrite run_cons.
    split; [exact Hinv' |]. split.
    + now rewrite Hf', Hf1.
    + rewrite Hv', Hv1. cbn [concat]. now rewrite app_assoc.
Qed.

(** C3: the report file of a streamer that opens it empty, on a disk that
    takes writes, starts as the two bytes of the empty array; every append
    of a batch does what the specification words (drop the closing
    bracket, write the separator when more than 2 bytes remain, write the
    batch separated by commas, close the bracket); and after every append
    the file is the JSON array of all violations written so far, in order:
    an opening bracket, the violations separated by a comma and a newline,
    a closing bracket. The batches are non-empty, as the validator adapter
    sends them. *)
Theorem report_file_is_the_array_so_far
    (report : string) (now : Time) (fs fs1 : FS) (filename : string)
    (rolloverChan : option Time)
    (batches : list (list ValidationError)) (batch : list ValidationError) :
  nameReportFile Format report now fs = inl (fs1, filename, rolloverChan) ->
  openError fs1 filename = None ->
  content fs1 filename = EmptyString ->
  writeError fs1 = None ->
  Forall (fun b => b <> []) batches ->
  batch <> [] ->
  let opened := listenForValidationErrors Format report true now fs in
  let before := run Format Marshal opened (map Violations batches) in
  let after := step Format Marshal before (Violations batch) in
  content (disk opened) (f opened) = "[]" /\
  content (disk before) (f before) = render Marshal (concat batches) /\
  content (disk after) (f after)
  = appendAsSpecified Marshal (content (disk before) (f before)) batch /\
  content (disk after) (f after) = render Marshal (concat batches ++ batch) /\
  streamViolations after = concat batches ++ batch.
Proof.
  intros Hname Ho Hc Hw Hall Hb opened before after.
  destruct (openReportFile_fresh report now fs fs1 filename rolloverChan Hname Ho Hc Hw)
    as (fs' & Hopen & Hc' & Hw').
  assert (Hopened : opened
                    = {| reportFile := report; stream := true; streamViolations := [];
                         disk := fs'; f := filename; rotateChan := rolloverChan;
                         listening := true |}).
  { unfold opened, listenForValidationErrors. now rewrite Hopen. }
  assert (Hinv : between_appends Marshal opened).
  { rewrite Hopened. unfold between_appends. cbn. auto. }
  destruct (run_appends opened batches Hinv Hall) as (Hinv1 & Hf1 & Hv1).
  fold before in Hinv1, Hf1, Hv1.
  destruct (step_appends before batch Hinv1 Hb) as (Hinv2 & Hf2 & Hv2 & Hspec).
  fold after in Hinv2, Hf2, Hv2, Hspec.
  assert (Hvs : streamViolations before = concat batches) by now rewrite Hv1, Hopened.
  split; [now rewrite Hopened |].
  destruct Hinv1 as (_ & _ & _ & Hc1), Hinv2 as (_ & _ & _ & Hc2).
  rewrite Hc2, Hv2, Hc1, Hvs in *. auto.
Qed.

(** C10: when the report file is opened empty and the write of the two
    bytes of the empty array fails, [openReportFile] tests the error of
    [OpenFile], which is nil, and not the error of the write: it returns
    the file with a nil error, the streamer starts, and the file is empty,
    not an array. *)
Theorem write_failure_is_not_reported
    (report : string) (streaming : bool) (now : Time) (fs fs1 : FS) (filename : string)
    (rolloverChan : option Time) (e : string) :
  nameReportFile Format report now fs = inl (fs1, filename, rolloverChan) ->
  openError fs1 filename = None ->
  content fs1 filename = EmptyString ->
  writeError fs1 = Some e ->
  exists fs',
    openReportFile Format report now fs = (fs', (Some filename, rolloverChan, None)) /\
    content fs' filename = EmptyString /\
    content fs' filename <> "[]" /\
    let ws := listenForValidationErrors Format report streaming now fs in
    listening ws = true /\ f ws = filename /\ disk ws = fs'.
Proof.
  intros Hname Ho Hc Hw.
  destruct (OpenFile_empty fs1 filename Ho Hc) as (fs2 & Hopen & Hc2 & Hsize & Hw2).
  rewrite Hw in Hw2.
  assert (Hrun : openReportFile Format report now fs
                 = (fs2, (Some filename, rolloverChan, None))).
  { unfold openReportFile. rewrite Hname, Hopen, Hsize. cbn [Z.eqb].
    now rewrite (WriteString_fails fs2 filename "[]" e Hw2). }
  exists fs2. split; [exact Hrun |]. split; [exact Hc2 |].
  split; [rewrite Hc2; discriminate |].
  unfold listenForValidationErrors. rewrite Hrun. cbn. auto.
Qed.

End Facts.

Lemma bracesMessage_length (v : ValidationError) :
  (2 <= String.length (bracesMessage v))%nat.
Proof.
  unfold bracesMessage. rewrite !length_append. cbn [String.length]. lia.
Qed.

(** A report without placeholder on an empty disk: a batch of two
    violations, then a batch of one. *)
Lemma report_file_is_the_array_so_far_witness :
  let v1 := {| Message := "a"; pathMissing := false |} in
  let v2 := {| Message := "b"; pathMissing := false |} in
  let v3 := {| Message := "c"; pathMissing := false |} in
  let fs := {| files := ∅; openError := fun _ => None; writeError := None |} in
  let Format := fun (_ : Time) (layout : string) => layout in
  let opened := listenForValidationErrors Format "report.json" true zeroTime fs in
  let before := run Format bracesMessage opened [Violations [v1; v2]] in
  let after := step Format bracesMessage before (Violations [v3]) in
  content (disk opened) (f opened) = "[]" /\
  content (disk before) (f before)
  = "[{a}" +:+ commaNewline +:+ "{b}]" /\
  content (disk after) (f after)
  = "[{a}" +:+ commaNewline +:+ "{b}" +:+ commaNewline +:+ "{c}]".
Proof.
  intros v1 v2 v3 fs Format opened before after.
  destruct (report_file_is_the_array_so_far Format bracesMessage bracesMessage_length
              "report.json" zeroTime fs fs "report.json" None [[v1; v2]] [v3]
              eq_refl eq_refl eq_refl eq_refl
              ltac:(repeat constructor; discriminate) ltac:(discriminate))
    as (H0 & H1 & _ & H2 & _).
  split; [exact H0 |]. split; [exact H1 | exact H2].
Defined.

(** The same report on a disk that refuses writes. *)
Lemma write_failure_is_not_reported_witness :
  let fs := {| files := ∅; openError := fun _ => None;
               writeError := Some "no space left on device" |} in
  let Format := fun (_ : Time) (layout : string) => layout in
  exists fs',
    openReportFile Format "report.json" zeroTime fs = (fs', (Some "report.json", None, None)) /\
    content fs' "report.json" = EmptyString.
Proof.
  intros fs Format.
  destruct (write_failure_is_not_reported Format "report.json" true zeroTime fs fs
              "report.json" None "no space left on device"
              eq_refl eq_refl eq_refl eq_refl)
    as (fs' & Hrun & Hc & _).
  exists fs'. split; [exact Hrun | exact Hc].
Defined.

End StreamerFacts.

(** ** The static mock matcher: the selectors one by one *)

Module SelectorFacts.
Import StaticMock MockHandler.

Section Facts.

Variable IsSubset : value -> value -> bool.
Variable StringCompare : string -> string -> bool.
Variable Unmarshal : string -> option value.

(** Up to the body, [isRequestMatch] only reads the request. *)
Lemma isRequestMatch_before_body (mock : StaticMockDefinitionRequest) (incoming : Request) :
  isRequestMatch IsSubset StringCompare Unmarshal mock incoming
  = if nonBodySelectorsHold IsSubset StringCompare mock incoming
    then if negb (isNil (mBody mock))
         then match compareBody IsSubset Unmarshal mock incoming with
              | (Ret ok, r) => (Ret ok, r)
              | (Panic v, r) => (Panic v, r)
              end
         else (Ret true, incoming)
    else (Ret false, incoming).
Proof.
  unfold isRequestMatch, nonBodySelectorsHold, bind, get, ret.
  destruct (String.eqb (mHost mock) ""); cbn [negb andb orb];
    [| destruct (StringCompare (mHost mock) (Host incoming)); cbn [negb andb orb];
       [| reflexivity]];
    (destruct (String.eqb (Method incoming) (mMethod mock)); cbn [negb andb orb];
       [| reflexivity]);
    (destruct (String.eqb (mUrlPath mock) ""); cbn [negb andb orb];
       [| destruct (StringCompare (mUrlPath mock) (Path (Url incoming)));
          cbn [negb andb orb]; [| reflexivity]]);
    (destruct (mHeader mock) as [h|];
       [destruct (compareHeaders IsSubset h incoming); cbn [negb andb]; [| reflexivity] |]);
    (destruct (mQueryParams mock) as [q|];
       [destruct (compareQueryParams IsSubset q (Query (Url incoming)));
        cbn [negb andb]; [| reflexivity] |]);
    cbn [andb];
    (destruct (negb (isNil (mBody mock))); [| reflexivity]);
    (destruct (compareBody IsSubset Unmarshal mock incoming) as [[[|] | v] r]; reflexivity).
Qed.

(** X1: a mock without body selector is matched without panic and without
    touching the request, and it matches exactly when host, method, path,
    headers and query parameters all agree (an empty host or path and an
    absent header or query map agree with everything). *)
Theorem match_without_body_reads_only
    (mock : StaticMockDefinitionRequest) (incoming : Request) :
  mBody mock = VNull ->
  isRequestMatch IsSubset StringCompare Unmarshal mock incoming
  = (Ret (nonBodySelectorsHold IsSubset StringCompare mock incoming), incoming).
Proof.
  intros Hnil. rewrite isRequestMatch_before_body, Hnil. cbn [isNil negb].
  now destruct (nonBodySelectorsHold IsSubset StringCompare mock incoming).
Qed.



(** X3: a mock whose body is a JSON object or array never matches a
    request whose Content-Type is not exactly [application/json], and the
    request is not touched: its body is not read. *)
Theorem json_body_needs_json_content_type
    (mock : StaticMockDefinitionRequest) (incoming : Request) :
  isJsonBody (mBody mock) = true ->
  Header_Get (ReqHeader incoming) "Content-Type" <> "application/json" ->
  isRequestMatch IsSubset StringCompare Unmarshal mock incoming = (Ret false, incoming).
Proof.
  intros Hjson Hct. rewrite isRequestMatch_before_body.
  destruct (nonBodySelectorsHold IsSubset StringCompare mock incoming); [| reflexivity].
  apply String.eqb_neq in Hct.
  unfold compareBody, compareJsonBody, bind, get, ret.
  destruct (mBody mock); try discriminate; cbn [isNil negb]; rewrite Hct; reflexivity.
Qed.

End Facts.


(** The same mock and a request in plain text. *)
Lemma json_body_needs_json_content_type_witness :
  let mock := {| mHost := ""; mMethod := "POST"; mUrlPath := "/a";
                 mHeader := None; mQueryParams := None; mBody := VObj [] |} in
  let incoming := {| Host := "localhost"; Method := "POST";
                     Url := {| Path := "/a"; Query := ∅ |};
                     ReqHeader := {[ "Content-Type" := ["text/plain"] ]};
                     Body := NewReader "{}" |} in
  isRequestMatch Shared.IsSubset Shared.StringCompare Shared.decode_only_empty mock incoming
  = (Ret false, incoming).
Proof.
  intros mock incoming.
  apply (json_body_needs_json_content_type Shared.IsSubset Shared.StringCompare
           Shared.decode_only_empty mock incoming);
    [vm_compute; reflexivity | vm_compute; discriminate].
Defined.

(** A mock that only names the method and the path, in another case. *)
Lemma match_without_body_reads_only_witness :
  let mock := {| mHost := ""; mMethod := "GET"; mUrlPath := "/PETS";
                 mHeader := None; mQueryParams := None; mBody := VNull |} in
  let incoming := {| Host := "localhost"; Method := "GET";
                     Url := {| Path := "/pets"; Query := ∅ |};
                     ReqHeader := ∅; Body := NewReader "unread" |} in
  isRequestMatch Shared.IsSubset Shared.StringCompare Shared.decode_only_empty mock incoming
  = (Ret true, incoming).
Proof.
  intros mock incoming.
  apply (match_without_body_reads_only Shared.IsSubset Shared.StringCompare
           Shared.decode_only_empty mock incoming).
  reflexivity.
Defined.

End SelectorFacts.

(** ** The static mock look-up and handler *)

Module HandlerFacts.
Import StaticMock MockHandler SelectorFacts.

Section Facts.

Variable IsSubset : value -> value -> bool.
Variable StringCompare : string -> string -> bool.
Variable Unmarshal : string -> option value.
Variable getStaticMockResponse : StaticMockDefinition -> M Request MockedResponse.
Variable MarshalError : WiretapError -> string.

(** X4: among definitions without body selector the look-up returns the
    first, in declared order, whose selectors hold, or nil when there is
    none; it does not panic and leaves the request as it was. *)
Theorem first_declared_match_wins
    (mockDefinitions : list StaticMockDefinition) (incoming : Request) :
  Forall (fun d => mBody (defRequest d) = VNull) mockDefinitions ->
  checkStaticMockExists IsSubset StringCompare Unmarshal mockDefinitions incoming
  = (Ret (List.find
            (fun d => nonBodySelectorsHold IsSubset StringCompare (defRequest d) incoming)
            mockDefinitions),
     incoming).
Proof.
  induction 1 as [|d rest Hd _ IH]; [reflexivity |].
  cbn [checkStaticMockExists List.find]. unfold bind.
  rewrite isRequestMatch_before_body, Hd. cbn [isNil negb].
  destruct (nonBodySelectorsHold IsSubset StringCompare (defRequest d) incoming);
    [reflexivity | exact IH].
Qed.

Lemma set_Body_same (r : Request) : set_Body r (Body r) = r.
Proof. now destruct r. Qed.

(** Once the body has been read to its end, no definition with a non-empty
    string body matches any more. *)
Lemma exhausted_body_matches_no_string
    (rest : list StaticMockDefinition) (r : Request) :
  Body r = NewReader "" ->
  Forall (fun d => isNonEmptyStringBody (mBody (defRequest d)) = true) rest ->
  checkStaticMockExists IsSubset StringCompare Unmarshal rest r = (Ret None, r).
Proof.
  intros Hb. induction 1 as [|d rest Hd _ IH]; [reflexivity |].
  cbn [checkStaticMockExists]. unfold bind.
  rewrite isRequestMatch_before_body.
  destruct (nonBodySelectorsHold IsSubset StringCompare (defRequest d) r); [| exact IH].
  destruct (mBody (defRequest d)) as [| | | mb | |] eqn:Hm; try discriminate.
  cbn [isNil negb].
  rewrite (MatcherFacts.compareBody_string IsSubset Unmarshal (defRequest d) r mb "" Hm Hb).
  rewrite <- Hb, set_Body_same.
  cbn in Hd. destruct mb; [discriminate |]. cbn. exact IH.
Qed.

(** X5: when the first definition has a string body and agrees with the
    request on everything but the body, the look-up reads the body to its
    end for it; the definitions after it that have a non-empty string body
    are then compared with an empty body, so none of them is found, not
    even one whose string is the body of the request. *)
Theorem string_body_mismatch_shadows_later_definitions
    (first : StaticMockDefinition) (rest : list StaticMockDefinition)
    (incoming : Request) (expected bs : string) :
  mBody (defRequest first) = VStr expected ->
  nonBodySelectorsHold IsSubset StringCompare (defRequest first) incoming = true ->
  Body incoming = NewReader bs ->
  bs <> expected ->
  Forall (fun d => isNonEmptyStringBody (mBody (defRequest d)) = true) rest ->
  checkStaticMockExists IsSubset StringCompare Unmarshal (first :: rest) incoming
  = (Ret None, set_Body incoming (NewReader "")).
Proof.
  intros Hm Hsel Hb Hne Hrest.
  cbn [checkStaticMockExists]. unfold bind.
  rewrite isRequestMatch_before_body, Hsel, Hm. cbn [isNil negb].
  rewrite (MatcherFacts.compareBody_string IsSubset Unmarshal (defRequest first) incoming
             expected bs Hm Hb).
  apply String.eqb_neq in Hne. rewrite Hne.
  apply exhausted_body_matches_no_string; [now destruct incoming | exact Hrest].
Qed.

(** X6: whatever the definitions, the request and the behaviour of the
    response builder, the handler makes exactly one call to the wiretap
    service: a panic of the look-up or of the builder does not escape it
    and does not leave the request unanswered. The calls to the service
    are recorded, not run: they are taken to return. *)
Theorem handler_calls_the_service_once
    (mockDefinitions : list StaticMockDefinition) (st : Handling) :
  exists c,
    calls (handleStaticMockRequest IsSubset StringCompare Unmarshal getStaticMockResponse
             MarshalError mockDefinitions st)
    = calls st ++ [c].
Proof.
  unfold handleStaticMockRequest, handleBody, bind, onRequest, callService.
  destruct (checkStaticMockExists IsSubset StringCompare Unmarshal mockDefinitions
              (inFlight st)) as [[[d|] | v] r]; cbn; eauto.
  destruct (getStaticMockResponse d r) as [[resp | v] r']; cbn; eauto.
Qed.

(** X7: what the one call is. Without a match the request is passed on;
    with a match the response built for the matched definition is
    delivered; a panic of the look-up or of the builder is delivered as a
    response with status 500 whose body is the error made of the panic,
    with the message of the [error] when it has one and the handler's own
    message otherwise. *)
Theorem handler_outcomes
    (mockDefinitions : list StaticMockDefinition) (st : Handling) :
  let lookup :=
    checkStaticMockExists IsSubset StringCompare Unmarshal mockDefinitions (inFlight st) in
  let after :=
    handleStaticMockRequest IsSubset StringCompare Unmarshal getStaticMockResponse
      MarshalError mockDefinitions st in
  let failure (v : PanicValue) :=
    {| head := {| StatusCode := 500; RespHeader := ∅ |};
       responseBody :=
         MarshalError (GenerateError (recoveredMessage v) 500 "Internal server error" "" v) |} in
  (forall r, lookup = (Ret None, r) ->
     after = {| inFlight := r; calls := calls st ++ [HandleHttpRequest r] |}) /\
  (forall d r resp r',
     lookup = (Ret (Some d), r) -> getStaticMockResponse d r = (Ret resp, r') ->
     after = {| inFlight := r'; calls := calls st ++ [HandleStaticMockResponse r' resp] |}) /\
  (forall v r, lookup = (Panic v, r) ->
     after = {| inFlight := r;
                calls := calls st ++ [HandleStaticMockResponse r (failure v)] |}) /\
  (forall d r v r',
     lookup = (Ret (Some d), r) -> getStaticMockResponse d r = (Panic v, r') ->
     after = {| inFlight := r';
                calls := calls st ++ [HandleStaticMockResponse r' (failure v)] |}) /\
  (forall msg, msg <> "" -> recoveredMessage (PError msg) = msg) /\
  (forall text, recoveredMessage (PString text) = "Error in static mock handler") /\
  recoveredMessage (PError "") = "Error in static mock handler".
Proof.
  intros lookup after failure.
  unfold after, handleStaticMockRequest, handleBody, bind, onRequest, callService.
  fold lookup.
  repeat split.
  - intros r ->. reflexivity.
  - intros d r resp r' -> Hresp. cbn. rewrite Hresp. reflexivity.
  - intros v r ->. reflexivity.
  - intros d r v r' -> Hresp. cbn. rewrite Hresp. reflexivity.
  - intros msg Hmsg. unfold recoveredMessage.
    apply String.eqb_neq in Hmsg. now rewrite Hmsg.
Qed.

End Facts.

(** Two definitions with string bodies, and a request that carries the
    body of the second. *)
Lemma string_body_mismatch_shadows_later_definitions_witness :
  let response := {| rStatusCode := 200; rHeader := None; rBody := VNull |} in
  let asks (text : string) :=
    {| defRequest := {| mHost := ""; mMethod := "POST"; mUrlPath := "";
                        mHeader := None; mQueryParams := None; mBody := VStr text |};
       defResponse := response |} in
  let incoming := {| Host := "localhost"; Method := "POST";
                     Url := {| Path := "/"; Query := ∅ |};
                     ReqHeader := ∅; Body := NewReader "pong" |} in
  checkStaticMockExists Shared.IsSubset Shared.StringCompare Shared.decode_only_empty
    [asks "pong"] incoming
  = (Ret (Some (asks "pong")), set_Body incoming (NewReader "")) /\
  checkStaticMockExists Shared.IsSubset Shared.StringCompare Shared.decode_only_empty
    [asks "ping"; asks "pong"] incoming
  = (Ret None, set_Body incoming (NewReader "")).
Proof.
  intros response asks incoming. split; [vm_compute; reflexivity |].
  apply (string_body_mismatch_shadows_later_definitions Shared.IsSubset
           Shared.StringCompare Shared.decode_only_empty
           (asks "ping") [asks "pong"] incoming "ping" "pong").
  - reflexivity.
  - vm_compute. reflexivity.
  - reflexivity.
  - discriminate.
  - repeat constructor.
Defined.

(** Two definitions without body selector that both fit the request. *)
Lemma first_declared_match_wins_witness :
  let answers (status : Z) :=
    {| defRequest := {| mHost := ""; mMethod := "GET"; mUrlPath := "/pets";
                        mHeader := None; mQueryParams := None; mBody := VNull |};
       defResponse := {| rStatusCode := status; rHeader := None; rBody := VNull |} |} in
  let incoming := {| Host := "localhost"; Method := "GET";
                     Url := {| Path := "/pets"; Query := ∅ |};
                     ReqHeader := ∅; Body := NewReader "" |} in
  checkStaticMockExists Shared.IsSubset Shared.StringCompare Shared.decode_only_empty
    [answers 200; answers 404] incoming
  = (Ret (Some (answers 200)), incoming).
Proof.
  intros answers incoming.
  apply (first_declared_match_wins Shared.IsSubset Shared.StringCompare
           Shared.decode_only_empty [answers 200; answers 404] incoming).
  repeat constructor.
Defined.

(** A JSON mock and a request whose body does not decode: the handler
    answers with status 500 and the message of the decoder. *)
Lemma handler_outcomes_witness :
  let d := {| defRequest := {| mHost := ""; mMethod := "POST"; mUrlPath := "";
                               mHeader := None; mQueryParams := None; mBody := VObj [] |};
              defResponse := {| rStatusCode := 200; rHeader := None; rBody := VNull |} |} in
  let incoming := {| Host := "localhost"; Method := "POST";
                     Url := {| Path := "/"; Query := ∅ |};
                     ReqHeader := {[ "Content-Type" := ["application/json"] ]};
                     Body := NewReader "{" |} in
  let st := {| inFlight := incoming; calls := [] |} in
  handleStaticMockRequest Shared.IsSubset Shared.StringCompare Shared.decode_only_empty
    statusOnly messageOnly [d] st
  = {| inFlight := incoming;
       calls := [HandleStaticMockResponse incoming
                   {| head := {| StatusCode := 500; RespHeader := ∅ |};
                      responseBody := "json: cannot decode the request body" |}] |}.
Proof.
  intros d incoming st.
  destruct (handler_outcomes Shared.IsSubset Shared.StringCompare Shared.decode_only_empty
              statusOnly messageOnly [d] st) as (_ & _ & Hpanic & _).
  apply (Hpanic (PError "json: cannot decode the request body") incoming).
  vm_compute. reflexivity.
Defined.

End HandlerFacts.

(** ** The transport wrapper: failures, and what is left alone *)

Module ForwardingFacts.
Import Transport Forwarding TransportFacts.

(** A chain is followed up to its first failure; the cookies of the
    answers before it are captured. *)
Lemma Do_first_failure tr (init : list Response) (e : string) (rest : list RoundTripResult) :
  Do tr (map Answered init ++ Failed e :: rest)
  = ({| capturedCookieHeaders := capturedCookieHeaders tr ++ cookies init |}, Failed e).
Proof.
  revert tr. induction init as [|r init IH]; intros tr.
  - cbn [map app Do RoundTrip]. unfold cookies. cbn [map].
    rewrite filter_nil, app_nil_r. now destruct tr.
  - change (map Answered (r :: init) ++ Failed e :: rest)
      with (Answered r :: (map Answered init ++ Failed e :: rest)).
    rewrite Do_follow by (destruct init; discriminate).
    rewrite IH. cbn [capturedCookieHeaders]. f_equal. f_equal.
    rewrite <- app_assoc. f_equal. unfold cookies.
    change (r :: init) with ([r] ++ init).
    now rewrite (map_app _ [r] init), filter_app.
Qed.

(** X8: when a round trip of the chain fails, [callAPI] returns the error
    of that round trip and no response, whatever the answers before it
    carried and whatever would have followed. *)
Theorem callAPI_returns_first_failure
    (init : list Response) (e : string) (rest : list RoundTripResult) :
  callAPI (map Answered init ++ Failed e :: rest) = inr e.
Proof. unfold callAPI. now rewrite Do_first_failure. Qed.




Section Rewrite.

Variable cloneRequest : Request -> string -> string -> string -> Request.
Variable reconstructURL : Request -> string -> string -> string -> string.

(** X10: the request that is sent is the clone. When the clone has a
    referer, the referer is kept under X-Original-Referer and replaced by
    the reconstructed address, and nothing else changes; when it has none,
    the clone is sent as it is, without either header added. *)
Theorem referer_is_kept_and_rewritten (req : Request) (config : WiretapConfiguration) :
  let clone :=
    cloneRequest req (RedirectProtocol config) (RedirectHost config) (RedirectPort config) in
  let sent := forwardedRequest cloneRequest reconstructURL req config in
  (Header_Get (ReqHeader clone) "Referer" <> "" ->
     Header_Get (ReqHeader sent) "X-Original-Referer" = Header_Get (ReqHeader clone) "Referer" /\
     Header_Get (ReqHeader sent) "Referer"
     = reconstructURL req (RedirectProtocol config) (RedirectHost config)
         (RedirectPort config) /\
     (forall k, k <> "Referer" -> k <> "X-Original-Referer" ->
        ReqHeader sent !! k = ReqHeader clone !! k) /\
     Host sent = Host clone /\ Method sent = Method clone /\
     Url sent = Url clone /\ Body sent = Body clone) /\
  (Header_Get (ReqHeader clone) "Referer" = "" -> sent = clone).
Proof.
  intros clone sent. unfold sent, forwardedRequest. fold clone. split.
  - intros Href. apply String.eqb_neq in Href. rewrite Href. cbn.
    unfold Header_Get, Header_Set.
    rewrite lookup_insert_ne by discriminate. rewrite !lookup_insert_eq.
    repeat split.
    intros k Hk Hk'. now rewrite !lookup_insert_ne by congruence.
  - intros Href. now rewrite Href.
Qed.

End Rewrite.

(** A clone that keeps the request, and a referer to rewrite. *)
Lemma referer_is_kept_and_rewritten_witness :
  let req := {| Host := "localhost:9090"; Method := "GET";
                Url := {| Path := "/pets"; Query := ∅ |};
                ReqHeader := {[ "Referer" := ["http://localhost:9090/index"] ]};
                Body := NewReader "" |} in
  let config := {| RedirectProtocol := "https"; RedirectHost := "api.example.com";
                   RedirectPort := "443" |} in
  let clone := fun (r : Request) (_ _ _ : string) => r in
  let address := fun (r : Request) (protocol host port : string) =>
                   protocol +:+ "://" +:+ host +:+ ":" +:+ port +:+ Path (Url r) in
  let sent := forwardedRequest clone address req config in
  Header_Get (ReqHeader sent) "X-Original-Referer" = "http://localhost:9090/index" /\
  Header_Get (ReqHeader sent) "Referer" = "https://api.example.com:443/pets".
Proof.
  intros req config clone address sent.
  destruct (referer_is_kept_and_rewritten clone address req config) as [Hsome _].
  destruct (Hsome ltac:(vm_compute; discriminate)) as (Hkept & Hnew & _).
  split; [exact Hkept | exact Hnew].
Defined.

End ForwardingFacts.

(** ** The validator adapter: requests, panics, and what is left alone *)

Module AdapterFacts.
Import Validate Calls ValidateFacts.

Section Facts.

Variable ValidateHttpRequest : Request -> Outcome (list ValidationError).
Variable ValidateHttpResponse : Request -> Response -> Outcome (list ValidationError).
Variable BuildHttpTransaction : HttpTransactionConfig -> HttpTransaction.
Variable BuildResponse : ModelRequest -> Response -> HttpTransaction.


(** X12: one call to the adapter, whatever it ends in, writes the store
    under the ID of its request only, keeps whether a document is loaded,
    and adds at most one batch to the streamer channel and at most one
    message to the broadcast sink, after what was there. *)
Theorem adapter_call_frame (ws : WiretapService) (c : Call) :
  let ws' := perform ValidateHttpRequest ValidateHttpResponse BuildHttpTransaction
               BuildResponse ws c in
  document ws' = document ws /\
  docModel ws' = docModel ws /\
  (forall k, k <> callId c -> transactionStore ws' !! k = transactionStore ws !! k) /\
  (exists sent, streamChan ws' = streamChan ws ++ sent /\ (length sent <= 1)%nat) /\
  (exists out, broadcasts ws' = broadcasts ws ++ out /\ (length out <= 1)%nat).
Proof.
  destruct c as [modelRequest httpRequest | request returnedResponse]; cbn [perform callId].
  - unfold ValidateRequest, recovering, bind, get, call, ret.
    destruct (document ws && docModel ws);
      [destruct (ValidateHttpRequest httpRequest) as [errs | [text | msg]] |];
      rewrite ?copy_loop; cbn [app];
      try (destruct errs as [|e errs]); cbn;
      repeat split;
      try (intros k Hk; now rewrite lookup_insert_ne by congruence);
      try (eexists; split; [reflexivity | cbn; lia]);
      try (exists []; split; [now rewrite app_nil_r | cbn; lia]).
  - unfold ValidateResponse, recovering, bind, get, call, ret.
    destruct (document ws && docModel ws);
      [destruct (ValidateHttpResponse (HttpRequest request) returnedResponse)
         as [errs | [text | msg]] |];
      rewrite ?cleaning_loop; cbn [app];
      try (destruct (List.filter _ errs) as [|e cleaned]); cbn;
      repeat split;
      try (intros k Hk; now rewrite lookup_insert_ne by congruence);
      try (eexists; split; [reflexivity | cbn; lia]);
      try (exists []; split; [now rewrite app_nil_r | cbn; lia]).
Qed.

(** X13: when the validator panics, the adapter stores, sends and
    broadcasts nothing: the service is as it was. When the panic carries a
    string, the call returns one error, whose message is the prefix of the
    operation followed by that string. *)
Theorem validator_panic_changes_nothing
    (ws : WiretapService) (request : ModelRequest) (httpRequest : Request)
    (returnedResponse : Response) (v : PanicValue) :
  document ws = true -> docModel ws = true ->
  ValidateHttpRequest httpRequest = Panic v ->
  ValidateHttpResponse (HttpRequest request) returnedResponse = Panic v ->
  let request_run :=
    ValidateRequest ValidateHttpRequest BuildHttpTransaction request httpRequest ws in
  let response_run :=
    ValidateResponse ValidateHttpResponse BuildResponse request returnedResponse ws in
  snd request_run = ws /\ snd response_run = ws /\
  (forall text, v = PString text ->
     fst request_run
     = Ret [{| Message := "Error validating request: " +:+ text; pathMissing := false |}] /\
     fst response_run
     = Ret [{| Message := "Error validating response: " +:+ text; pathMissing := false |}]).
Proof.
  intros Hdoc Hmodel Hreq Hresp request_run response_run.
  unfold request_run, response_run, ValidateRequest, ValidateResponse, recovering, bind,
    get, call, ret.
  rewrite Hdoc, Hmodel, Hreq, Hresp. cbn [andb].
  destruct v as [text | msg]; cbn;
    (split; [reflexivity | split; [reflexivity |]]);
    intros t Ht; [injection Ht as <-; split; reflexivity | discriminate].
Qed.

(** X14: without a loaded document the validator is not consulted: the
    calls return no error and send nothing on the channel, and they do the
    same whatever the validator would have done, panics included. *)
Theorem no_document_no_validation
    (ws : WiretapService) (request : ModelRequest) (httpRequest : Request)
    (returnedResponse : Response)
    (otherRequestValidator : Request -> Outcome (list ValidationError))
    (otherResponseValidator : Request -> Response -> Outcome (list ValidationError)) :
  document ws && docModel ws = false ->
  let request_run :=
    ValidateRequest ValidateHttpRequest BuildHttpTransaction request httpRequest ws in
  let response_run :=
    ValidateResponse ValidateHttpResponse BuildResponse request returnedResponse ws in
  fst request_run = Ret [] /\ fst response_run = Ret [] /\
  streamChan (snd request_run) = streamChan ws /\
  streamChan (snd response_run) = streamChan ws /\
  request_run
  = ValidateRequest otherRequestValidator BuildHttpTransaction request httpRequest ws /\
  response_run
  = ValidateResponse otherResponseValidator BuildResponse request returnedResponse ws.
Proof.
  intros Hno request_run response_run.
  unfold request_run, response_run, ValidateRequest, ValidateResponse, recovering, bind,
    get, call, ret.
  rewrite Hno. cbn. repeat split.
Qed.

(** Every batch on the streamer channel is non-empty, after any sequence
    of calls. *)
Lemma performAll_sends_nonempty (cs : list Call) (ws : WiretapService) :
  Forall (fun batch => batch <> []) (streamChan ws) ->
  Forall (fun batch => batch <> [])
         (streamChan (performAll ValidateHttpRequest ValidateHttpResponse
                        BuildHttpTransaction BuildResponse ws cs)).
Proof.
  revert ws. induction cs as [|c cs IH]; intros ws Hall; [exact Hall |].
  cbn [performAll fold_left]. apply IH.
  destruct c as [modelRequest httpRequest | request returnedResponse]; cbn [perform].
  - destruct (ValidateRequest ValidateHttpRequest BuildHttpTransaction modelRequest
                httpRequest ws) as [out ws'] eqn:E.
    exact (ValidateRequest_sends_nonempty _ _ ws ws' modelRequest httpRequest out Hall E).
  - destruct (ValidateResponse ValidateHttpResponse BuildResponse request
                returnedResponse ws) as [out ws'] eqn:E.
    exact (ValidateResponse_sends_nonempty _ _ ws ws' request returnedResponse out Hall E).
Qed.

End Facts.


(** A validator that panics with a string, on a service that already holds
    a batch. *)
Lemma validator_panic_changes_nothing_witness :
  let earlier := {| Message := "schema violated"; pathMissing := false |} in
  let http := {| Host := "localhost"; Method := "GET";
                 Url := {| Path := "/pets"; Query := ∅ |};
                 ReqHeader := ∅; Body := NewReader "" |} in
  let request := {| Id := "7f1c"; HttpRequest := http |} in
  let resp := {| StatusCode := 200; RespHeader := ∅ |} in
  let ws := {| document := true; docModel := true; transactionStore := ∅;
               streamChan := [[earlier]]; broadcasts := [] |} in
  ValidateResponse (fun _ _ => Panic (PString "boom")) plainResponse request resp ws
  = (Ret [{| Message := "Error validating response: boom"; pathMissing := false |}], ws).
Proof.
  intros earlier http request resp ws.
  destruct (validator_panic_changes_nothing
              (fun _ => Panic (PString "boom")) (fun _ _ => Panic (PString "boom"))
              plainTransaction plainResponse ws request http resp (PString "boom")
              eq_refl eq_refl eq_refl eq_refl)
    as (_ & Hws & Hmsg).
  destruct (Hmsg "boom" eq_refl) as [_ Hout].
  rewrite (surjective_pairing (ValidateResponse _ _ _ _ _)).
  now rewrite Hws, Hout.
Defined.

(** A service without document and a validator that would panic. *)
Lemma no_document_no_validation_witness :
  let http := {| Host := "localhost"; Method := "GET";
                 Url := {| Path := "/pets"; Query := ∅ |};
                 ReqHeader := ∅; Body := NewReader "" |} in
  let request := {| Id := "7f1c"; HttpRequest := http |} in
  let resp := {| StatusCode := 200; RespHeader := ∅ |} in
  let ws := {| document := false; docModel := true; transactionStore := ∅;
               streamChan := []; broadcasts := [] |} in
  fst (ValidateResponse (fun _ _ => Panic (PError "nil map")) plainResponse request resp ws)
  = Ret [].
Proof.
  intros http request resp ws.
  destruct (no_document_no_validation
              (fun _ => Panic (PError "nil map")) (fun _ _ => Panic (PError "nil map"))
              plainTransaction plainResponse ws request http resp
              (fun _ => Ret []) (fun _ _ => Ret []) eq_refl)
    as (_ & Hresp & _).
  exact Hresp.
Defined.

End AdapterFacts.

(** ** The report streamer: more on patterns *)

Module LayoutFacts.
Import Strings StreamOutput StringsFacts PatternFacts.

(** Replacing a doubled byte leaves no doubled byte behind. *)
Lemma replace_from_removes (c : ascii) (new : string) :
  occurs c new = false ->
  forall (fuel : nat) (s : string),
    (String.length s <= fuel)%nat ->
    Contains (replace_from fuel s (twice c) new) (twice c) = false.
Proof.
  intros Hnew. induction fuel as [|fuel IH]; intros s Hlen.
  - destruct s; [reflexivity | simpl in Hlen; lia].
  - destruct s as [|x s]; [reflexivity |].
    cbn [replace_from]. destruct (HasPrefix (String x s) (twice c)) eqn:Hp.
    + rewrite Contains_twice_skip by exact Hnew. apply IH.
      destruct s as [|y s]; simpl in *; lia.
    + simpl in Hlen. rewrite Contains_cons, HasPrefix_twice, (IH s) by lia.
      rewrite orb_false_r. rewrite HasPrefix_twice in Hp.
      destruct (Ascii.eqb x c); [| reflexivity]. cbn [andb] in Hp |- *.
      destruct s as [|y s]; [now destruct fuel |].
      cbn [headIs] in Hp. destruct fuel as [|fuel']; [simpl in Hlen; lia |].
      cbn [replace_from]. rewrite HasPrefix_twice, Hp. cbn [andb headIs]. exact Hp.
Qed.

Lemma replace_from_length (old new : string) :
  old <> EmptyString -> String.length new = String.length old ->
  forall (fuel : nat) (s : string),
    (String.length s <= fuel)%nat ->
    String.length (replace_from fuel s old new) = String.length s.
Proof.
  intros Hold Hnew. induction fuel as [|fuel IH]; intros s Hlen; [reflexivity |].
  destruct s as [|x s]; [reflexivity |].
  cbn [replace_from]. destruct (HasPrefix (String x s) old) eqn:Hp.
  - pose proof (HasPrefix_split _ _ Hp) as Hs.
    set (rest := drop (String.length old) (String x s)) in *.
    apply (f_equal String.length) in Hs. rewrite length_append in Hs.
    assert (Hrest : (String.length rest <= fuel)%nat).
    { destruct old; [congruence |]. simpl in Hs, Hlen. lia. }
    rewrite length_append, (IH rest Hrest), Hnew. lia.
  - simpl in Hlen |- *. now rewrite IH by lia.
Qed.

(** A text that holds four of a byte in a row holds two. *)
Lemma Contains_four_two (c : ascii) (s : string) :
  Contains s (String c (String c (twice c))) = true -> Contains s (twice c) = true.
Proof.
  induction s as [|x s IH]; [discriminate |].
  rewrite !Contains_cons. intros H. apply orb_true_iff in H as [H | H].
  - apply orb_true_iff. left. rewrite HasPrefix_twice.
    destruct s as [|y s]; simpl in H; [now rewrite andb_false_r in H |].
    apply andb_true_iff in H as [Hx H]. apply andb_true_iff in H as [Hy _].
    cbn [headIs]. now rewrite Hx, Hy.
  - apply orb_true_iff. right. now apply IH.
Qed.

(** One turn of the loop keeps the length, and leaves no token that is a
    doubled byte. *)
Lemma applyMapping_length (m : timeUnitMapping) (formatted : string) (u : Z) :
  In m timeUnitMappings ->
  String.length (fst (applyMapping (formatted, u) m)) = String.length formatted.
Proof.
  intros Hin.
  assert (Hshape : input m <> EmptyString /\
                   String.length (goFormat m) = String.length (input m)).
  { simpl in Hin.
    repeat (destruct Hin as [<- | Hin]; [split; [discriminate | reflexivity] |]).
    destruct Hin. }
  destruct Hshape as [Hi Hl].
  unfold applyMapping. destruct (Contains formatted (input m)); [| reflexivity].
  cbn [fst]. rewrite ReplaceAll_nonempty by exact Hi.
  now apply replace_from_length.
Qed.

Lemma applyMapping_removes (m : timeUnitMapping) (c : ascii) (formatted : string) (u : Z) :
  input m = twice c -> occurs c (goFormat m) = false ->
  Contains (fst (applyMapping (formatted, u) m)) (twice c) = false.
Proof.
  intros Hi Hg. unfold applyMapping. rewrite Hi.
  destruct (Contains formatted (twice c)) eqn:Hc; cbn [fst]; [| exact Hc].
  apply (replace_from_removes c (goFormat m) Hg (String.length formatted) formatted (le_n _)).
Qed.

Ltac turn' i f u H L R :=
  lazymatch goal with
  | |- context [applyMapping (?f0, ?u0) ?m] =>
      pose proof (applyMapping_spec m f0 u0 (In_mappings i m eq_refl)) as H;
      pose proof (applyMapping_length m f0 u0 (In_mappings i m eq_refl)) as L;
      pose proof (fun c => applyMapping_removes m c f0 u0) as R;
      destruct (applyMapping (f0, u0) m) as [f u];
      cbn [fst snd input goFormat unit] in H, L, R
  end.

(** The text the loop of [convertPatternToGoTimeFormat] ends with has the
    length of the pattern and holds none of the tokens. *)
Lemma loop_leaves_no_token (pattern : string) :
  let formatted := fst (fold_left applyMapping timeUnitMappings (pattern, YEAR)) in
  String.length formatted = String.length pattern /\
  forall m, In m timeUnitMappings -> Contains formatted (input m) = false.
Proof.
  unfold timeUnitMappings at 1. cbn [fold_left].
  turn' 0%nat f1 u1 H1 L1 R1. turn' 1%nat f2 u2 H2 L2 R2. turn' 2%nat f3 u3 H3 L3 R3.
  turn' 3%nat f4 u4 H4 L4 R4. turn' 4%nat f5 u5 H5 L5 R5. turn' 5%nat f6 u6 H6 L6 R6.
  turn' 6%nat f7 u7 H7 L7 R7.
  cbn [fst]. split; [congruence |].
  pose proof (fun c Hi Hg => proj2 (proj2 (proj2 H3)) c Hi Hg) as K3.
  pose proof (fun c Hi Hg => proj2 (proj2 (proj2 H4)) c Hi Hg) as K4.
  pose proof (fun c Hi Hg => proj2 (proj2 (proj2 H5)) c Hi Hg) as K5.
  pose proof (fun c Hi Hg => proj2 (proj2 (proj2 H6)) c Hi Hg) as K6.
  pose proof (fun c Hi Hg => proj2 (proj2 (proj2 H7)) c Hi Hg) as K7.
  assert (EY : Contains f7 "YY" = false).
  { etransitivity; [exact (K7 "Y"%char eq_refl eq_refl) |].
    etransitivity; [exact (K6 "Y"%char eq_refl eq_refl) |].
    etransitivity; [exact (K5 "Y"%char eq_refl eq_refl) |].
    etransitivity; [exact (K4 "Y"%char eq_refl eq_refl) |].
    etransitivity; [exact (K3 "Y"%char eq_refl eq_refl) |].
    exact (R2 "Y"%char eq_refl eq_refl). }
  assert (EM : Contains f7 "MM" = false).
  { etransitivity; [exact (K7 "M"%char eq_refl eq_refl) |].
    etransitivity; [exact (K6 "M"%char eq_refl eq_refl) |].
    etransitivity; [exact (K5 "M"%char eq_refl eq_refl) |].
    etransitivity; [exact (K4 "M"%char eq_refl eq_refl) |].
    exact (R3 "M"%char eq_refl eq_refl). }
  assert (ED : Contains f7 "DD" = false).
  { etransitivity; [exact (K7 "D"%char eq_refl eq_refl) |].
    etransitivity; [exact (K6 "D"%char eq_refl eq_refl) |].
    etransitivity; [exact (K5 "D"%char eq_refl eq_refl) |].
    exact (R4 "D"%char eq_refl eq_refl). }
  assert (EH : Contains f7 "HH" = false).
  { etransitivity; [exact (K7 "H"%char eq_refl eq_refl) |].
    etransitivity; [exact (K6 "H"%char eq_refl eq_refl) |].
    exact (R5 "H"%char eq_refl eq_refl). }
  assert (Em : Contains f7 "mm" = false).
  { etransitivity; [exact (K7 "m"%char eq_refl eq_refl) |].
    exact (R6 "m"%char eq_refl eq_refl). }
  assert (ES : Contains f7 "SS" = false) by exact (R7 "S"%char eq_refl eq_refl).
  intros m Hin. simpl in Hin.
  destruct Hin as [<- | [<- | [<- | [<- | [<- | [<- | [<- | []]]]]]]]; cbn [input];
    try assumption.
  destruct (Contains f7 "YYYY") eqn:E4; [| reflexivity].
  apply (Contains_four_two "Y"%char) in E4.
  change (twice "Y") with "YY" in E4. congruence.
Qed.

(** A pattern without token goes through the loop unchanged. *)
Lemma loop_without_token (pattern : string) :
  hasToken pattern = false ->
  fold_left applyMapping timeUnitMappings (pattern, YEAR) = (pattern, YEAR).
Proof.
  unfold hasToken, timeUnitMappings. cbn [existsb input fold_left]. intros H.
  repeat (apply orb_false_iff in H as [?B H]).
  unfold applyMapping. cbn [input].
  repeat match goal with
         | B : Contains pattern _ = false |- _ => rewrite B; clear B
         end.
  reflexivity.
Qed.

Lemma convert_without_token (pattern : string) :
  hasToken pattern = false ->
  convertPatternToGoTimeFormat pattern
  = ("", 0, Some "no valid time unit placeholders found in pattern").
Proof.
  intros Hno. unfold convertPatternToGoTimeFormat.
  rewrite (loop_without_token pattern Hno), String.eqb_refl. reflexivity.
Qed.

(** X15: [convertPatternToGoTimeFormat] returns its error, with an empty
    layout and unit 0, exactly for the patterns that hold none of the seven
    tokens. *)
Theorem pattern_without_token_is_refused (pattern : string) :
  convertPatternToGoTimeFormat pattern
  = ("", 0, Some "no valid time unit placeholders found in pattern")
  <-> hasToken pattern = false.
Proof.
  split.
  - intros Herr. destruct (hasToken pattern) eqn:Htok; [| reflexivity].
    destruct (convertPattern_smallest pattern Htok) as [formatted Hok].
    rewrite Hok in Herr. discriminate.
  - apply convert_without_token.
Qed.

(** X16: the layout of a pattern that is accepted has the length of the
    pattern and holds none of the seven tokens any more. *)
Theorem layout_holds_no_token (pattern layout : string) (u : Z) :
  convertPatternToGoTimeFormat pattern = (layout, u, None) ->
  String.length layout = String.length pattern /\
  forall m, In m timeUnitMappings -> Contains layout (input m) = false.
Proof.
  unfold convertPatternToGoTimeFormat. intros Hconv.
  pose proof (loop_leaves_no_token pattern) as Hloop. cbv zeta in Hloop.
  destruct (fold_left applyMapping timeUnitMappings (pattern, YEAR)) as [formatted su].
  cbn [fst] in Hloop.
  destruct (String.eqb formatted pattern); [discriminate |].
  injection Hconv as <- _. exact Hloop.
Qed.

Lemma layout_holds_no_token_witness :
  String.length "2006-01-02T15:04:05" = String.length "YYYY-MM-DDTHH:mm:SS" /\
  forall m, In m timeUnitMappings -> Contains "2006-01-02T15:04:05" (input m) = false.
Proof.
  apply (layout_holds_no_token "YYYY-MM-DDTHH:mm:SS" "2006-01-02T15:04:05" SECOND).
  vm_compute. reflexivity.
Defined.

End LayoutFacts.

(** ** The report streamer: more on the rollover *)

Module DelayFacts.
Import GoTime StreamOutput CalendarFacts RolloverFacts.

(** X17: [calculateNextRollover] returns its error, with the zero time,
    exactly for the units that are none of the six. *)
Theorem unknown_unit_is_refused (u : Z) (now : Time) :
  calculateNextRollover u now = (zeroTime, Some "unknown smallest time unit")
  <-> ~ (SECOND <= u <= YEAR).
Proof.
  split.
  - intros Herr Hu. destruct (calculateNextRollover_first u now Hu) as (next & Hok & _).
    rewrite Hok in Herr. discriminate.
  - intros Hu. unfold calculateNextRollover, SECOND, MINUTE, HOUR, DAY, MONTH, YEAR in *.
    repeat match goal with
           | |- context [?a =? ?b] => destruct (Z.eqb_spec a b); [lia |]
           end.
    reflexivity.
Qed.












(** X19: the rollover of the hour and of the minute fall on a whole hour
    and a whole minute since the zero time, not on the wall clock of the
    location: on that clock the hour rolls as many seconds past the hour
    as the offset of the location has beyond whole hours, and likewise the
    minute. *)
Theorem hour_rolls_with_absolute_time (now : Time) :
  wall (fst (calculateNextRollover HOUR now)) mod Hour = loc now mod 3600 * Second /\
  wall (fst (calculateNextRollover MINUTE now)) mod Minute = loc now mod 60 * Second.
Proof.
  assert (Hgen : forall d k, 0 < k -> d = k * Second ->
            wall (Add (Truncate now d) d) mod d = loc now mod k * Second).
  { intros d k Hk Hd.
    assert (Hpos : 0 < d) by (subst d; unfold Second, Nanosecond; lia).
    destruct (truncate_add_first now d Hpos) as (Hloc & _ & Hz & _).
    unfold wall. rewrite Hloc.
    rewrite <- Z.add_mod_idemp_l, Hz, Z.add_0_l by lia.
    rewrite Hd. rewrite Z.mul_mod_distr_r by (unfold Second, Nanosecond; lia).
    reflexivity. }
  split.
  - apply (Hgen Hour 3600); [lia | reflexivity].
  - apply (Hgen Minute 60); [lia | reflexivity].
Qed.

End DelayFacts.

(** ** The report streamer: opening, rotating, and what is left alone *)

Module ReportFacts.
Import Strings GoTime Os StreamOutput StringsFacts FileFacts StreamerFacts.

(** Writes and cuts touch the file they are given, and no other. *)
Lemma WriteString_other (fs : FS) (name data : string) :
  delete name (files (fst (WriteString fs name data))) = delete name (files fs).
Proof.
  unfold WriteString. destruct (writeError fs); cbn [fst files set_files]; [reflexivity |].
  apply delete_insert_eq.
Qed.

Lemma Truncate_other (fs : FS) (name : string) (size : Z) :
  delete name (files (Os.Truncate fs name size)) = delete name (files fs).
Proof.
  unfold Os.Truncate. destruct (files fs !! name); [| reflexivity].
  destruct (size <? 0); [reflexivity |]. cbn [files set_files]. apply delete_insert_eq.
Qed.

Section Facts.

Variable Format : Time -> string -> string.
Variable Marshal : ValidationError -> string.

Lemma writeViolations_other (fs : FS) (f : string) (violations : list ValidationError) :
  delete f (files (writeViolations Marshal fs f violations)) = delete f (files fs).
Proof.
  unfold writeViolations.
  generalize (combine (seq 0 (length violations)) violations) as turns.
  generalize (length violations) as len.
  intros len turns. revert fs.
  induction turns as [|[i v] turns IH]; intros fs; [reflexivity |].
  cbn [fold_left]. rewrite IH, writeViolation_turn.
  destruct (Z.of_nat i <? Z.of_nat len - 1); now rewrite !WriteString_other.
Qed.

Lemma appendBatch_other (fs : FS) (f : string) (violations : list ValidationError) :
  delete f (files (appendBatch Marshal fs f violations)) = delete f (files fs).
Proof.
  unfold appendBatch. rewrite WriteString_other, writeViolations_other.
  destruct (2 <? Size fs f); now rewrite ?WriteString_other, Truncate_other.
Qed.

(** X20: a batch of violations changes no file but the open report file,
    whatever the disk and the files hold, and leaves the name of the
    report, the open file and the rollover channel as they are; with
    streaming off it changes nothing at all. *)
Theorem violations_touch_only_the_report (ws : Streamer) (batch : list ValidationError) :
  let ws' := step Format Marshal ws (Violations batch) in
  delete (f ws) (files (disk ws')) = delete (f ws) (files (disk ws)) /\
  f ws' = f ws /\ reportFile ws' = reportFile ws /\ rotateChan ws' = rotateChan ws /\
  (stream ws = false -> ws' = ws).
Proof.
  unfold step. destruct (listening ws); cbn [negb]; [| repeat split].
  destruct (stream ws); [| repeat split].
  cbn [disk f reportFile rotateChan]. rewrite appendBatch_other.
  repeat split. discriminate.
Qed.

(** Opening a name whose file is absent or empty, on a disk that takes
    writes: the file starts as the empty array and the other files are as
    they were. *)
Lemma openReportFile_fresh_others (report : string) (now : Time) (fs fs1 : FS)
    (filename : string) (rolloverChan : option Time) :
  nameReportFile Format report now fs = inl (fs1, filename, rolloverChan) ->
  openError fs1 filename = None ->
  content fs1 filename = EmptyString ->
  writeError fs1 = None ->
  exists fs',
    openReportFile Format report now fs = (fs', (Some filename, rolloverChan, None)) /\
    content fs' filename = "[]" /\
    writeError fs' = None /\
    delete filename (files fs') = delete filename (files fs1).
Proof.
  intros Hname Ho Hc Hw. unfold openReportFile. rewrite Hname.
  destruct (OpenFile_empty fs1 filename Ho Hc) as (fs2 & Hopen & Hc2 & Hsize & Hw2).
  assert (Hother : delete filename (files fs2) = delete filename (files fs1)).
  { unfold OpenFile in Hopen. rewrite Ho in Hopen.
    destruct (files fs1 !! filename); injection Hopen as <-; [reflexivity |].
    cbn [files set_files]. apply delete_insert_eq. }
  rewrite Hopen, Hsize. cbn [Z.eqb].
  rewrite Hw in Hw2.
  destruct (WriteString_appends fs2 filename "[]" Hw2) as [Hc3 Hw3].
  pose proof (WriteString_other fs2 filename "[]") as Hother3.
  destruct (WriteString fs2 filename "[]") as [fs3 e]. cbn [fst] in Hc3, Hw3, Hother3.
  exists fs3. repeat split; [| exact Hw3 | congruence]. now rewrite Hc3, Hc2.
Qed.

(** X21: a report name without placeholder is removed and created anew on
    opening, on a disk that takes writes: whatever the file held before,
    it now holds the empty array; no rollover is set up; and the other
    files are as they were. *)
Theorem plain_report_starts_afresh (report : string) (now : Time) (fs : FS) :
  FindStringSubmatch report = [] ->
  openError fs report = None ->
  writeError fs = None ->
  exists fs',
    openReportFile Format report now fs = (fs', (Some report, None, None)) /\
    content fs' report = "[]" /\
    delete report (files fs') = delete report (files fs).
Proof.
  intros Hplain Ho Hw.
  assert (Hname : nameReportFile Format report now fs = inl (Remove fs report, report, None)).
  { unfold nameReportFile. now rewrite Hplain. }
  destruct (openReportFile_fresh_others report now fs (Remove fs report) report None
              Hname Ho) as (fs' & Hopen & Hc & _ & Hother).
  - unfold content, Remove. cbn [files set_files]. now rewrite lookup_delete_eq.
  - exact Hw.
  - exists fs'. repeat split; [exact Hopen | exact Hc |].
    rewrite Hother. unfold Remove. cbn [files set_files]. apply delete_delete_eq.
Qed.

(** X22: a report file that exists and is not empty is opened as it is:
    nothing is written to it and the disk does not change, whether or not
    the disk takes writes and whatever the file holds. *)
Theorem existing_report_is_opened_as_it_is
    (report : string) (now : Time) (fs : FS) (filename : string)
    (rolloverChan : option Time) :
  nameReportFile Format report now fs = inl (fs, filename, rolloverChan) ->
  openError fs filename = None ->
  content fs filename <> EmptyString ->
  openReportFile Format report now fs = (fs, (Some filename, rolloverChan, None)).
Proof.
  intros Hname Ho Hc. unfold openReportFile. rewrite Hname.
  unfold OpenFile. rewrite Ho.
  assert (Hsize : (Size fs filename =? 0) = false).
  { apply Z.eqb_neq. unfold Size. destruct (content fs filename); [congruence |].
    cbn [String.length]. lia. }
  unfold content in Hc.
  destruct (files fs !! filename) as [c|] eqn:Hf; [| now cbn in Hc].
  now rewrite Hsize.
Qed.

(** The regular expression on a name of the shape
    [before{inner}after]. *)
Lemma spanInner_inner (inner after : string) :
  occurs "}" inner = false ->
  spanInner (inner +:+ String "}" after) = (inner, String "}" after).
Proof.
  induction inner as [|c inner IH]; intros Hno; [reflexivity |].
  simpl in Hno. apply orb_false_iff in Hno as [Hc Hno].
  rewrite append_cons. cbn [spanInner]. rewrite Hc, (IH Hno). reflexivity.
Qed.

Lemma matchHere_placeholder (inner after : string) :
  inner <> EmptyString -> occurs "}" inner = false ->
  matchHere (String "{" (inner +:+ String "}" after)) = Some (inner, after).
Proof.
  intros Hne Hno. cbn [matchHere]. rewrite Ascii.eqb_refl, (spanInner_inner inner after Hno).
  destruct inner; [congruence | reflexivity].
Qed.

Lemma matchHere_other (c : ascii) (s : string) :
  Ascii.eqb c "{" = false -> matchHere (String c s) = None.
Proof. intros Hc. cbn [matchHere]. now rewrite Hc. Qed.

Lemma FindStringSubmatch_skip (before s : string) :
  occurs "{" before = false ->
  FindStringSubmatch (before +:+ s) = FindStringSubmatch s.
Proof.
  induction before as [|c before IH]; intros Hno; [reflexivity |].
  simpl in Hno. apply orb_false_iff in Hno as [Hc Hno].
  rewrite append_cons. cbn [FindStringSubmatch].
  rewrite (matchHere_other c _ Hc). now apply IH.
Qed.

Lemma FindStringSubmatch_none (s : string) :
  occurs "{" s = false -> FindStringSubmatch s = [].
Proof.
  intros Hno. rewrite <- (append_empty_r s). now rewrite FindStringSubmatch_skip.
Qed.



Lemma placeholder_found (before inner after : string) :
  occurs "{" before = false -> inner <> EmptyString -> occurs "}" inner = false ->
  FindStringSubmatch (before +:+ String "{" (inner +:+ String "}" after))
  = ["{" +:+ inner +:+ "}"; inner].
Proof.
  intros Hb Hne Hi. rewrite FindStringSubmatch_skip by exact Hb.
  destruct (String "{" (inner +:+ String "}" after)) eqn:E; [discriminate |].
  cbn [FindStringSubmatch]. rewrite <- E, (matchHere_placeholder inner after Hne Hi).
  reflexivity.
Qed.



(** X24: for a report name whose placeholder holds no token the streamer
    does not start: [openReportFile] returns the error of the conversion
    and leaves the disk alone, and whatever is sent to the streamer
    afterwards changes neither the disk nor the list of violations in
    memory. *)
Theorem placeholder_without_token_stops_the_streamer
    (before pattern after : string) (streaming : bool) (now : Time) (fs : FS)
    (events : list Event) :
  occurs "{" before = false ->
  pattern <> EmptyString ->
  occurs "}" pattern = false ->
  hasToken pattern = false ->
  let report := before +:+ String "{" (pattern +:+ String "}" after) in
  let ws := listenForValidationErrors Format report streaming now fs in
  openReportFile Format report now fs
  = (fs, (None, None, Some "no valid time unit placeholders found in pattern")) /\
  listening ws = false /\ disk ws = fs /\
  run Format Marshal ws events = ws /\ streamViolations ws = [].
Proof.
  intros Hb Hne Hp Htok report ws.
  assert (Hopen : openReportFile Format report now fs
                  = (fs, (None, None,
                          Some "no valid time unit placeholders found in pattern"))).
  { unfold openReportFile, nameReportFile, report.
    rewrite (placeholder_found before pattern after Hb Hne Hp).
    now rewrite (LayoutFacts.convert_without_token pattern Htok). }
  assert (Hws : ws = {| reportFile := report; stream := streaming; streamViolations := [];
                        disk := fs; f := ""; rotateChan := None; listening := false |}).
  { unfold ws, listenForValidationErrors. now rewrite Hopen. }
  split; [exact Hopen |]. rewrite Hws. cbn [listening disk streamViolations].
  repeat split.
  induction events as [|ev events IH]; [reflexivity |].
  rewrite run_cons. exact IH.
Qed.

End Facts.

Section Arrays.

Variable Format : Time -> string -> string.
Variable Marshal : ValidationError -> string.
Hypothesis Marshal_length : forall v, (2 <= String.length (Marshal v))%nat.

Lemma other_file_same (m m' : gmap string string) (name other : string) :
  delete name m' = delete name m -> other <> name -> m' !! other = m !! other.
Proof.
  intros Hd Hne.
  rewrite <- (lookup_delete_ne m' name other), <- (lookup_delete_ne m name other) by congruence.
  now rewrite Hd.
Qed.

(** Appends to a file that holds the array of [written]. *)
Lemma run_appends_written (ws : Streamer) (written : list ValidationError)
    (batches : list (list ValidationError)) :
  listening ws = true -> stream ws = true -> writeError (disk ws) = None ->
  content (disk ws) (f ws) = render Marshal written ->
  Forall (fun batch => batch <> []) batches ->
  let ws' := run Format Marshal ws (map Violations batches) in
  f ws' = f ws /\
  content (disk ws') (f ws) = render Marshal (written ++ concat batches) /\
  streamViolations ws' = streamViolations ws ++ concat batches /\
  delete (f ws) (files (disk ws')) = delete (f ws) (files (disk ws)).
Proof.
  intros Hl Hs Hw Hc Hall. revert ws written Hl Hs Hw Hc.
  induction Hall as [|batch batches Hb _ IH]; intros ws written Hl Hs Hw Hc.
  - cbn. now rewrite !app_nil_r.
  - cbn [map]. rewrite run_cons.
    destruct (appendBatch_spec Marshal Marshal_length (disk ws) (f ws) written batch Hw Hc Hb)
      as (Hr & _ & Hw').
    set (ws1 := step Format Marshal ws (Violations batch)).
    assert (Hws1 : ws1 = {| reportFile := reportFile ws; stream := stream ws;
                            streamViolations := streamViolations ws ++ batch;
                            disk := appendBatch Marshal (disk ws) (f ws) batch;
                            f := f ws; rotateChan := rotateChan ws; listening := true |}).
    { unfold ws1, step. now rewrite Hl, Hs. }
    assert (Hl1 : listening ws1 = true) by now rewrite Hws1.
    assert (Hs1 : stream ws1 = true) by now rewrite Hws1.
    assert (Hw1 : writeError (disk ws1) = None) by now rewrite Hws1.
    assert (Hc1 : content (disk ws1) (f ws1) = render Marshal (written ++ batch))
      by now rewrite Hws1.
    destruct (IH ws1 (written ++ batch) Hl1 Hs1 Hw1 Hc1) as (Hf & Hc' & Hv & Hd).
    rewrite Hws1 in Hf, Hc', Hv, Hd. cbn [f disk streamViolations] in Hf, Hc', Hv, Hd.
    cbv zeta. fold ws1. rewrite Hws1.
    repeat split.
    + exact Hf.
    + rewrite Hc'. cbn [concat]. now rewrite app_assoc.
    + rewrite Hv. cbn [concat]. now rewrite app_assoc.
    + rewrite Hd. apply appendBatch_other.
Qed.

(** X25: when the rollover fires and the report gets a new name whose
    file is absent or empty, the streamer goes on in the new file: after
    any batches the new file is the array of the violations that came
    after the rollover, the file that was open before is as the rollover
    found it, and the list in memory holds the violations from before and
    after. *)
Theorem rollover_starts_a_new_array
    (ws : Streamer) (now : Time) (newName : string) (rolloverChan : option Time)
    (due : Time) (batches : list (list ValidationError)) :
  listening ws = true -> stream ws = true ->
  rotateChan ws = Some due ->
  writeError (disk ws) = None ->
  nameReportFile Format (reportFile ws) now (disk ws) = inl (disk ws, newName, rolloverChan) ->
  newName <> f ws ->
  openError (disk ws) newName = None ->
  content (disk ws) newName = EmptyString ->
  Forall (fun batch => batch <> []) batches ->
  let ws' := run Format Marshal ws (Rotate now :: map Violations batches) in
  f ws' = newName /\
  content (disk ws') newName = render Marshal (concat batches) /\
  files (disk ws') !! f ws = files (disk ws) !! f ws /\
  streamViolations ws' = streamViolations ws ++ concat batches.
Proof.
  intros Hl Hs Hr Hw Hname Hnew Ho Hc Hall.
  destruct (openReportFile_fresh_others Format (reportFile ws) now (disk ws) (disk ws)
              newName rolloverChan Hname Ho Hc Hw) as (fs' & Hopen & Hc' & Hw' & Hother).
  rewrite run_cons.
  set (ws1 := step Format Marshal ws (Rotate now)).
  assert (Hws1 : ws1 = {| reportFile := reportFile ws; stream := stream ws;
                          streamViolations := streamViolations ws;
                          disk := fs'; f := newName; rotateChan := rolloverChan;
                          listening := true |}).
  { unfold ws1, step. now rewrite Hl, Hr, Hopen. }
  assert (Hl1 : listening ws1 = true) by now rewrite Hws1.
  assert (Hs1 : stream ws1 = true) by now rewrite Hws1.
  assert (Hw1 : writeError (disk ws1) = None) by now rewrite Hws1.
  assert (Hc1 : content (disk ws1) (f ws1) = render Marshal []) by now rewrite Hws1.
  destruct (run_appends_written ws1 [] batches Hl1 Hs1 Hw1 Hc1 Hall) as (Hf & Hc2 & Hv & Hd).
  assert (Hf1 : f ws1 = newName) by now rewrite Hws1.
  assert (Hd1 : disk ws1 = fs') by now rewrite Hws1.
  assert (Hv1 : streamViolations ws1 = streamViolations ws) by now rewrite Hws1.
  rewrite Hf1 in Hf, Hc2, Hd. rewrite Hd1 in Hd. rewrite Hv1 in Hv. cbn [app] in Hc2.
  cbv zeta. fold ws1.
  split; [exact Hf |]. split; [exact Hc2 |]. split; [| exact Hv].
  rewrite (other_file_same _ _ newName (f ws) Hd) by congruence.
  apply (other_file_same _ _ newName (f ws) Hother). congruence.
Qed.

(** X26: an empty batch makes the streamer cut the closing bracket and
    write it again, with the separator before it when the file holds
    violations: the empty array stays as it is, and an array with
    violations ends in a comma, a newline and the bracket. *)
Theorem empty_batch_leaves_a_separator
    (fs : FS) (f : string) (written : list ValidationError) :
  writeError fs = None ->
  content fs f = render Marshal written ->
  (written = [] -> content (appendBatch Marshal fs f []) f = "[]") /\
  (written <> [] ->
     content (appendBatch Marshal fs f []) f
     = String "[" (Join (map Marshal written) commaNewline) +:+ commaNewline +:+ "]").
Proof.
  intros Hw Hc.
  set (J := Join (map Marshal written) commaNewline).
  assert (Hshape : content fs f = String "[" J +:+ "]") by (rewrite Hc; apply render_shape).
  assert (Hfile : files fs !! f = Some (String "[" J +:+ "]")).
  { rewrite append_cons in Hshape |- *. now apply file_of_content. }
  destruct (Truncate_last fs f (String "[" J) "]" Hfile) as [Hcut Hwcut].
  rewrite Hw in Hwcut.
  assert (Hsize : Size fs f = Z.of_nat (String.length J) + 2).
  { unfold Size. rewrite Hshape, length_append. cbn [String.length]. lia. }
  rewrite Hsize in Hcut, Hwcut.
  unfold appendBatch. rewrite Hsize.
  set (fs1 := Os.Truncate fs f (Z.of_nat (String.length J) + 2 - 1)) in *.
  change (writeViolations Marshal ?x f []) with x.
  split.
  - intros Hnil. subst written. change J with EmptyString in *.
    destruct (Z.ltb_spec 2 (Z.of_nat (String.length EmptyString) + 2)) as [Hno | _];
      [cbn in Hno; lia |].
    destruct (WriteString_appends fs1 f "]" Hwcut) as [Hc3 _].
    now rewrite Hc3, Hcut.
  - intros Hsome.
    pose proof (Join_Marshal_length Marshal Marshal_length written Hsome) as HJ. fold J in HJ.
    destruct (Z.ltb_spec 2 (Z.of_nat (String.length J) + 2)) as [_ | Hno]; [| lia].
    destruct (WriteString_appends fs1 f commaNewline Hwcut) as [Hc1 Hw1].
    destruct (WriteString_appends _ f "]" Hw1) as [Hc3 _].
    rewrite Hc3, Hc1, Hcut. now rewrite !append_assoc.
Qed.

Variable ValidateHttpRequest : Request -> Outcome (list ValidationError).
Variable ValidateHttpResponse : Request -> Response -> Outcome (list ValidationError).
Variable BuildHttpTransaction : Validate.HttpTransactionConfig -> Validate.HttpTransaction.
Variable BuildResponse : Validate.ModelRequest -> Response -> Validate.HttpTransaction.

(** X27: whatever calls are made to the validator adapter, the batches
    they leave on the streamer channel, consumed in order by a streamer
    that opened its report empty on a disk that takes writes, make the
    report the array of all the violations on the channel, in order; the
    list in memory holds the same violations. *)
Theorem adapter_batches_make_the_report
    (cs : list Calls.Call) (service : Validate.WiretapService)
    (report : string) (now : Time) (fs fs1 : FS) (filename : string)
    (rolloverChan : option Time) :
  Validate.streamChan service = [] ->
  nameReportFile Format report now fs = inl (fs1, filename, rolloverChan) ->
  openError fs1 filename = None ->
  content fs1 filename = EmptyString ->
  writeError fs1 = None ->
  let chan :=
    Validate.streamChan
      (Calls.performAll ValidateHttpRequest ValidateHttpResponse BuildHttpTransaction
         BuildResponse service cs) in
  let ws := run Format Marshal (listenForValidationErrors Format report true now fs)
              (map Violations chan) in
  content (disk ws) (f ws) = render Marshal (concat chan) /\
  streamViolations ws = concat chan.
Proof.
  intros Hempty Hname Ho Hc Hw chan ws.
  assert (Hall : Forall (fun batch => batch <> []) chan).
  { apply AdapterFacts.performAll_sends_nonempty. rewrite Hempty. constructor. }
  destruct (openReportFile_fresh Format report now fs fs1 filename rolloverChan
              Hname Ho Hc Hw) as (fs' & Hopen & Hc' & Hw').
  set (opened := listenForValidationErrors Format report true now fs) in *.
  assert (Hopened : opened
                    = {| reportFile := report; stream := true; streamViolations := [];
                         disk := fs'; f := filename; rotateChan := rolloverChan;
                         listening := true |}).
  { unfold opened, listenForValidationErrors. now rewrite Hopen. }
  assert (Hl1 : listening opened = true) by now rewrite Hopened.
  assert (Hs1 : stream opened = true) by now rewrite Hopened.
  assert (Hw1 : writeError (disk opened) = None) by now rewrite Hopened.
  assert (Hc1 : content (disk opened) (f opened) = render Marshal []) by now rewrite Hopened.
  destruct (run_appends_written opened [] chan Hl1 Hs1 Hw1 Hc1 Hall) as (Hf & Hc2 & Hv & _).
  fold ws in Hf, Hc2, Hv. rewrite Hf. split; [exact Hc2 |].
  rewrite Hv, Hopened. reflexivity.
Qed.

End Arrays.

(** A plain report name over a file that held something else. *)
Lemma plain_report_starts_afresh_witness :
  let fs := {| files := {[ "report.json" := "old text"; "other.txt" := "kept" ]};
               openError := fun _ => None; writeError := None |} in
  let Format := fun (_ : Time) (layout : string) => layout in
  exists fs',
    openReportFile Format "report.json" zeroTime fs = (fs', (Some "report.json", None, None)) /\
    content fs' "report.json" = "[]" /\
    delete "report.json" (files fs') = delete "report.json" (files fs).
Proof.
  intros fs Format.
  apply (plain_report_starts_afresh Format "report.json" zeroTime fs); reflexivity.
Defined.

(** A report named by the minute whose file of this minute exists. *)
Lemma existing_report_is_opened_as_it_is_witness :
  let fs := {| files := {[ "r-04.json" := "[{a}]" ]};
               openError := fun _ => None; writeError := Some "read-only file system" |} in
  let Format := fun (_ : Time) (layout : string) => layout in
  let due := Some (fst (calculateNextRollover MINUTE zeroTime)) in
  openReportFile Format "r-{mm}.json" zeroTime fs = (fs, (Some "r-04.json", due, None)).
Proof.
  intros fs Format due.
  apply (existing_report_is_opened_as_it_is Format "r-{mm}.json" zeroTime fs "r-04.json" due).
  - vm_compute. reflexivity.
  - reflexivity.
  - vm_compute. discriminate.
Defined.


(** A placeholder that holds no token. *)
Lemma placeholder_without_token_stops_the_streamer_witness :
  let fs := {| files := ∅; openError := fun _ => None; writeError := None |} in
  let Format := fun (_ : Time) (layout : string) => layout in
  let v := {| Message := "a"; pathMissing := false |} in
  let ws := listenForValidationErrors Format "report-{today}.json" true zeroTime fs in
  listening ws = false /\ disk ws = fs /\
  run Format bracesMessage ws [Violations [v]] = ws.
Proof.
  intros fs Format v ws.
  destruct (placeholder_without_token_stops_the_streamer Format bracesMessage
              "report-" "today" ".json" true zeroTime fs [Violations [v]]
              eq_refl ltac:(discriminate) eq_refl eq_refl)
    as (_ & Hl & Hd & Hrun & _).
  split; [exact Hl |]. split; [exact Hd | exact Hrun].
Defined.

(** A streamer on the file of minute 03 when minute 04 begins. *)
Lemma rollover_starts_a_new_array_witness :
  let older := {| Message := "a"; pathMissing := false |} in
  let newer := {| Message := "b"; pathMissing := false |} in
  let fs := {| files := {[ "r-03.json" := "[{a}]" ]};
               openError := fun _ => None; writeError := None |} in
  let Format := fun (_ : Time) (layout : string) =>
                  if String.eqb layout "04" then "04" else layout in
  let ws := {| reportFile := "r-{mm}.json"; stream := true; streamViolations := [older];
               disk := fs; f := "r-03.json"; rotateChan := Some zeroTime;
               listening := true |} in
  let ws' := run Format bracesMessage ws [Rotate zeroTime; Violations [newer]] in
  f ws' = "r-04.json" /\
  content (disk ws') "r-04.json" = "[{b}]" /\
  files (disk ws') !! "r-03.json" = Some "[{a}]" /\
  streamViolations ws' = [older; newer].
Proof.
  intros older newer fs Format ws ws'.
  assert (Hname : nameReportFile Format (reportFile ws) zeroTime (disk ws)
                  = inl (disk ws, "r-04.json",
                         Some (fst (calculateNextRollover MINUTE zeroTime))))
    by (vm_compute; reflexivity).
  assert (Hall : Forall (fun batch : list ValidationError => batch <> []) [[newer]])
    by (constructor; [discriminate | constructor]).
  exact (rollover_starts_a_new_array Format bracesMessage bracesMessage_length
           ws zeroTime "r-04.json" (Some (fst (calculateNextRollover MINUTE zeroTime)))
           zeroTime [[newer]] eq_refl eq_refl eq_refl eq_refl Hname
           ltac:(discriminate) eq_refl eq_refl Hall).
Defined.

(** An empty batch after a batch of one. *)
Lemma empty_batch_leaves_a_separator_witness :
  let v := {| Message := "a"; pathMissing := false |} in
  let fs := {| files := {[ "report.json" := "[{a}]" ]};
               openError := fun _ => None; writeError := None |} in
  content (appendBatch bracesMessage fs "report.json" []) "report.json"
  = "[{a}" +:+ commaNewline +:+ "]".
Proof.
  intros v fs.
  destruct (empty_batch_leaves_a_separator bracesMessage bracesMessage_length
              fs "report.json" [v] eq_refl eq_refl) as [_ Hsome].
  apply Hsome. discriminate.
Defined.

(** A request without errors, a response with a missing path and a schema
    violation, a request with one error. *)
Lemma adapter_batches_make_the_report_witness :
  let missing := {| Message := "m"; pathMissing := true |} in
  let schema := {| Message := "s"; pathMissing := false |} in
  let http (path : string) :=
    {| Host := "localhost"; Method := "GET"; Url := {| Path := path; Query := ∅ |};
       ReqHeader := ∅; Body := NewReader "" |} in
  let request (path : string) := {| Validate.Id := path; Validate.HttpRequest := http path |} in
  let resp := {| StatusCode := 200; RespHeader := ∅ |} in
  let onRequest := fun (r : Request) =>
                     if String.eqb (Path (Url r)) "/bad" then Ret [schema] else Ret [] in
  let onResponse := fun (_ : Request) (_ : Response) => Ret [missing; schema] in
  let service := {| Validate.document := true; Validate.docModel := true;
                    Validate.transactionStore := ∅; Validate.streamChan := [];
                    Validate.broadcasts := [] |} in
  let cs := [Calls.CallValidateRequest (request "/pets") (http "/pets");
             Calls.CallValidateResponse (request "/pets") resp;
             Calls.CallValidateRequest (request "/bad") (http "/bad")] in
  let fs := {| files := ∅; openError := fun _ => None; writeError := None |} in
  let Format := fun (_ : Time) (layout : string) => layout in
  let chan :=
    Validate.streamChan
      (Calls.performAll onRequest onResponse Validate.plainTransaction
         Validate.plainResponse service cs) in
  let ws := run Format bracesMessage
              (listenForValidationErrors Format "report.json" true zeroTime fs)
              (map Violations chan) in
  chan = [[schema]; [schema]] /\
  content (disk ws) (f ws) = "[{s}" +:+ commaNewline +:+ "{s}]".
Proof.
  intros missing schema http request resp onRequest onResponse service cs fs Format chan ws.
  split; [vm_compute; reflexivity |].
  destruct (adapter_batches_make_the_report Format bracesMessage bracesMessage_length
              onRequest onResponse Validate.plainTransaction Validate.plainResponse
              cs service "report.json" zeroTime fs fs "report.json" None
              eq_refl eq_refl eq_refl eq_refl eq_refl) as [Hcontent _].
  exact Hcontent.
Defined.

End ReportFacts.
